(** * The incremental crawl engine of learning-note-analyzer

    A shallow embedding of [src/spider/spider.py] (class [ArticleSpider]) and
    of the twin implementation in [main.py]: timestamp parsing, the
    dedup/time filter, the page loop of [get_all_articles], the batch driver,
    the merge performed by [merge_and_save_incremental] and the history
    store.

    Conventions of the embedding.
    - Python [str] is [string] (ASCII text); a dict with string keys is a
      [gmap]; the fields the engine consults ([id], [update_time],
      [publish_time]) carry [str] values, as the annotations
      [timestamp_str: str] and [Set[str]] say.
    - Every [datetime] the repository builds is timezone aware
      ([datetime.now(timezone.utc)], [fromtimestamp(..., tz=timezone.utc)],
      an [isoformat] round trip of such a value), so a [datetime] is its UTC
      instant, counted in microseconds since the epoch.
    - Mutation and exceptions are explicit: every method is a function from
      the state to an [outcome], which is a normal return or a raised
      exception, each with the state reached.
    - What lies outside the program is a parameter: the library function
      [datetime.fromtimestamp], the remote server, and the disk. *)

From Stdlib Require Import ZArith Lia Ascii String.
From stdpp Require Import gmap strings list.

Local Open Scope Z_scope.

(** ** Python values and control *)

Inductive exn := ValueError | TypeError | OverflowError | OSError.

Inductive outcome (St A : Type) : Type :=
| Ret (a : A) (s : St)
| Raise (e : exn) (s : St).
Arguments Ret {St A} a s.
Arguments Raise {St A} e s.

Definition M (St A : Type) : Type := St -> outcome St A.

Definition ret {St A} (a : A) : M St A := fun s => Ret a s.

Definition bind {St A B} (c : M St A) (k : A -> M St B) : M St B :=
  fun s => match c s with
           | Ret a s' => k a s'
           | Raise e s' => Raise e s'
           end.

Definition raise {St A} (e : exn) : M St A := fun s => Raise e s.

Definition gets {St A} (f : St -> A) : M St A := fun s => Ret (f s) s.

Definition modify {St} (f : St -> St) : M St unit := fun s => Ret tt (f s).

(** [try: c  except <classes>: h]; the state changes made before the
    exception are kept, as in Python. *)
Definition try_except {St A} (c : M St A) (catches : exn -> bool)
    (h : exn -> M St A) : M St A :=
  fun s => match c s with
           | Ret a s' => Ret a s'
           | Raise e s' => if catches e then h e s' else Raise e s'
           end.

Definition when {St} (b : bool) (c : M St unit) : M St unit :=
  if b then c else ret tt.

Declare Scope py_scope.
Delimit Scope py_scope with py.
Notation "x <- c ;; k" := (bind c (fun x => k))
  (at level 100, c at next level, right associativity) : py_scope.
Notation "c ;; k" := (bind c (fun _ => k))
  (at level 100, right associativity) : py_scope.
Local Open Scope py_scope.

(** [bool(s)] of a [str]. *)
Definition truthy (s : string) : bool := bool_decide (s ≠ "").

(** *** [int(s)] on ASCII text

    Surrounding whitespace is dropped, one sign is allowed, then decimal
    digits follow, where a single underscore may stand between two digits. *)

Definition is_space (c : ascii) : bool :=
  let n := nat_of_ascii c in
  bool_decide (n = 32%nat) || (bool_decide (9 ≤ n)%nat && bool_decide (n ≤ 13)%nat).

Definition digit_of (c : ascii) : option Z :=
  let n := nat_of_ascii c in
  if bool_decide (48 ≤ n)%nat && bool_decide (n ≤ 57)%nat
  then Some (Z.of_nat (n - 48)) else None.

Fixpoint lstrip (s : list ascii) : list ascii :=
  match s with
  | c :: r => if is_space c then lstrip r else s
  | [] => []
  end.

Definition strip (s : list ascii) : list ascii := rev (lstrip (rev (lstrip s))).

Fixpoint digits (acc : Z) (after_digit : bool) (s : list ascii) : option Z :=
  match s with
  | [] => if after_digit then Some acc else None
  | c :: r =>
      match digit_of c with
      | Some d => digits (10 * acc + d) true r
      | None =>
          if bool_decide (c = "_"%char) && after_digit
          then digits acc false r
          else None
      end
  end.

Definition py_int (s : string) : option Z :=
  match strip (list_ascii_of_string s) with
  | c :: r =>
      if bool_decide (c = "-"%char) then Z.opp <$> digits 0 false r
      else if bool_decide (c = "+"%char) then digits 0 false r
      else digits 0 false (c :: r)
  | [] => None
  end.

(** *** Time *)

Abbreviation datetime := Z (only parsing).

Definition second : Z := 1000000.

(** The argument of [datetime.fromtimestamp]: the [int] read from the
    string, or the [float] that [timestamp / 1000] yields. *)
Inductive number :=
| PyInt (n : Z)
| PyFloat_div1000 (n : Z).

Inductive fromtimestamp_result :=
| Instant (t : datetime)
| Raises (e : exn).

(** One admissible library: exact inside the years 1..9999, [ValueError]
    for a year outside them that a 64-bit [time_t] still holds,
    [OverflowError] beyond. *)
Definition fromtimestamp_posix (x : number) : fromtimestamp_result :=
  let us := match x with
            | PyInt n => n * second
            | PyFloat_div1000 n => n * 1000
            end in
  if bool_decide (-62135596800 * second ≤ us < 253402300800 * second)
  then Instant us
  else if bool_decide (- 2 ^ 63 * second ≤ us < 2 ^ 63 * second)
       then Raises ValueError
       else Raises OverflowError.

(** ** Data *)

(** An article record: the dict built by [parse_articles], or read back
    from a corpus file. *)
Abbreviation article := (gmap string string) (only parsing).

(** [d.get(key, '')] *)
Definition get (d : article) (key : string) : string :=
  default "" (d !! key).

Record SpiderConfig := {
  section_id : string;
  topic_class_id : string;
  name : string;
  description : string;
  base_url : string;
}.

Definition default_base_url : string :=
  "https://www.hiascend.com/ascendgateway/ascendservice/devCenter/bbs/servlet/get-topic-list".

(** The decoded body of a response, [data["data"]] when present. *)
Record response_data := {
  resultList : option (list article);
  totalCount : option Z;
}.

(** What [get_page_data] returns. *)
Inductive payload :=
| EmptyDict                                   (* {} *)
| Dict (data : option response_data).         (* a dict with at least one key *)

Inductive response :=
| RequestException
| Json (body : payload).

Record request := {
  sectionId : string;
  filterCondition : string;
  pageIndex : Z;
  pageSize : Z;
  topicClassId : string;
}.

Inductive level := INFO | WARNING | ERROR.

Inductive message :=
| MsgDuplicates (n : nat)
| MsgOld (n : nat)
| MsgStart (incremental : bool) (config_name : string)
| MsgFilterTime (t : datetime)
| MsgFetching (page_index : Z)
| MsgRequestFailed
| MsgInvalidPage (page_index : Z)
| MsgTotal (total_count total_pages : Z)
| MsgAllPages (total_pages : Z)
| MsgPageFiltered (page_index : Z) (raw kept : nat)
| MsgNoNewArticles
| MsgPage (page_index : Z) (raw : nat)
| MsgLastPage (raw : nat) (page_size : Z)
| MsgFinished (incremental : bool) (total : nat)
| MsgNewCount (n : nat)
| MsgConfigMissing (config_name : string)
| MsgConfigStart (config_name : string)
| MsgConfigDone (config_name : string) (n : nat)
| MsgDirCreated (directory : string)
| MsgJsonSaved (directory file : string)
| MsgJsonFailed (directory file : string)
| MsgHistorySaved (directory file : string)
| MsgHistoryFailed.

(** A file path, kept as [os.path.dirname] and the file name. *)
Abbreviation path := (string * string)%type (only parsing).

Inductive document :=
| History (last_crawl_time : datetime) (total_articles : nat)
| Articles (l : list article).

Inductive file :=
| Complete (d : document)
| Partial.

(** The disk's answer to an operation. *)
Inductive disk_op :=
| Makedirs (directory : string)
| WriteFile (directory file : string).

Inductive verdict :=
| Done
| Refused            (* fails before anything is written *)
| Interrupted.       (* [open] succeeded, the write broke off *)

(** A reference to a Python list object. *)
Abbreviation loc := nat (only parsing).

(** The attributes of an [ArticleSpider], then the part of the world it
    acts on. *)
Record state := {
  data_dir : string;
  existing_article_ids : gset string;
  last_crawl_time : option datetime;
  all_articles : loc;
  configs : list (string * SpiderConfig);
  current_config : SpiderConfig;
  heap : list (list article);
  log : list (level * message);
  requests : list request;
  files : gmap path file;
  dirs : gset string;
}.

Definition set_existing_article_ids (v : gset string) (s : state) : state :=
  {| data_dir := data_dir s; existing_article_ids := v;
     last_crawl_time := last_crawl_time s; all_articles := all_articles s;
     configs := configs s; current_config := current_config s;
     heap := heap s; log := log s; requests := requests s;
     files := files s; dirs := dirs s |}.

Definition set_all_articles (v : loc) (s : state) : state :=
  {| data_dir := data_dir s; existing_article_ids := existing_article_ids s;
     last_crawl_time := last_crawl_time s; all_articles := v;
     configs := configs s; current_config := current_config s;
     heap := heap s; log := log s; requests := requests s;
     files := files s; dirs := dirs s |}.

Definition set_heap (v : list (list article)) (s : state) : state :=
  {| data_dir := data_dir s; existing_article_ids := existing_article_ids s;
     last_crawl_time := last_crawl_time s; all_articles := all_articles s;
     configs := configs s; current_config := current_config s;
     heap := v; log := log s; requests := requests s;
     files := files s; dirs := dirs s |}.

Definition set_log (v : list (level * message)) (s : state) : state :=
  {| data_dir := data_dir s; existing_article_ids := existing_article_ids s;
     last_crawl_time := last_crawl_time s; all_articles := all_articles s;
     configs := configs s; current_config := current_config s;
     heap := heap s; log := v; requests := requests s;
     files := files s; dirs := dirs s |}.

Definition set_requests (v : list request) (s : state) : state :=
  {| data_dir := data_dir s; existing_article_ids := existing_article_ids s;
     last_crawl_time := last_crawl_time s; all_articles := all_articles s;
     configs := configs s; current_config := current_config s;
     heap := heap s; log := log s; requests := v;
     files := files s; dirs := dirs s |}.

Definition set_files (v : gmap path file) (s : state) : state :=
  {| data_dir := data_dir s; existing_article_ids := existing_article_ids s;
     last_crawl_time := last_crawl_time s; all_articles := all_articles s;
     configs := configs s; current_config := current_config s;
     heap := heap s; log := log s; requests := requests s;
     files := v; dirs := dirs s |}.

Definition set_dirs (v : gset string) (s : state) : state :=
  {| data_dir := data_dir s; existing_article_ids := existing_article_ids s;
     last_crawl_time := last_crawl_time s; all_articles := all_articles s;
     configs := configs s; current_config := current_config s;
     heap := heap s; log := log s; requests := requests s;
     files := files s; dirs := v |}.

(** [self.logger.<level>(msg)]; [print(msg)] in [main.py]. *)
Definition logger (l : level) (m : message) : M state unit :=
  modify (fun s => set_log (log s ++ [(l, m)]) s).

(** The list object behind a reference. *)
Definition deref (s : state) (l : loc) : list article :=
  default [] (heap s !! l).

(** A new list object holding [v]. *)
Definition new_list (v : list article) : M state loc :=
  fun s => Ret (length (heap s)) (set_heap (heap s ++ [v]) s).

(** [l.extend(v)], in place. *)
Definition extend (l : loc) (v : list article) : M state unit :=
  modify (fun s => set_heap (<[l := deref s l ++ v]> (heap s)) s).

(** ** The methods of [ArticleSpider]

    [main.py] holds the same class, with [print] where [spider.py] calls
    the logger; the definitions below stand for both files. Where the two
    differ, in [save_crawl_history], each has its own definition. *)

Definition page_size : Z := 12.

(** The locals of [get_all_articles] that the page loop updates. *)
Record locals := {
  page_index : Z;
  total_count : Z;
  new_articles_count : nat;
}.

(** How an iteration of a loop ends: [break], or the next test of the loop
    condition ([continue], or the end of the body). *)
Inductive flow := Break | Continue.

(** What the filter does with one record. *)
Inductive decision := Accepted | Duplicate | TooOld.

(** [math.ceil(total_count / page_size)] *)
Definition ceil_div (a b : Z) : Z := - ((- a) / b).

(** [d[key] = v] and [d.get(key)] on a dict that keeps insertion order. *)
Fixpoint dict_set {V} (d : list (string * V)) (key : string) (v : V) : list (string * V) :=
  match d with
  | [] => [(key, v)]
  | (k, w) :: r => if bool_decide (k = key) then (k, v) :: r else (k, w) :: dict_set r key v
  end.

Fixpoint dict_get {V} (d : list (string * V)) (key : string) : option V :=
  match d with
  | [] => None
  | (k, w) :: r => if bool_decide (k = key) then Some w else dict_get r key
  end.

(** The keys of an article and the keys of the raw item they are read
    from, with the default of each; values that are not [str] (counters,
    lists) are carried as their text. *)
Definition copied_fields : list (string * string * string) :=
  [ ("id", "postId", ""); ("title", "title", ""); ("content", "content", "");
    ("content_summary", "contentSummary", ""); ("author_id", "authorId", "");
    ("author_name", "nickName", ""); ("author_icon", "authorIcon", "");
    ("create_time", "createTime", ""); ("update_time", "lastEditTime", "");
    ("publish_time", "dateline", ""); ("last_post_time", "lastPostTime", "");
    ("views", "views", "0"); ("replies", "replies", "0");
    ("comments", "comments", "0"); ("likes", "likes", "0");
    ("favorites", "favTimes", "0"); ("shares", "shareTimes", "0");
    ("topic_id", "topicId", ""); ("topic_class_id", "topicClassId", "");
    ("topic_class_name", "topicClassName", ""); ("section_id", "sectionId", "");
    ("section_name", "sectionName", ""); ("section_icon", "sectionIcon", "");
    ("level_name", "levelName", ""); ("pictures", "pictures", "0");
    ("attachments", "attachments", "0"); ("status", "status", "0");
    ("tags", "topicTagInfoList", "[]"); ("upload_info", "uploadInfoList", "[]");
    ("additional_option", "additionalOption", "{}") ].

(** The flags, each [item.get(key, 0) == 1]. *)
Definition flag_fields : list (string * string) :=
  [ ("is_top", "top"); ("is_digest", "digest"); ("is_recommend", "recommend");
    ("is_hot", "hot"); ("is_question", "isQuestion"); ("is_solved", "solved");
    ("is_edited", "isEdited") ].

Definition parse_item (item : gmap string string) : article :=
  let with_copies :=
    foldl (fun (a : article) '(key, src, dflt) => <[key := default dflt (item !! src)]> a)
          ∅ copied_fields in
  foldl (fun (a : article) '(key, src) =>
           <[key := if bool_decide (item !! src = Some "1") then "True" else "False"]> a)
        with_copies flag_fields.

Definition parse_articles (data : payload) : list article :=
  match data with
  | Dict (Some d) =>
      match resultList d with
      | Some items => parse_item <$> items
      | None => []
      end
  | _ => []
  end.

(** [existing_ids], [unique_new_articles] and [combined_articles] of
    [merge_and_save_incremental]: the merge of the corpus read from disk
    with the records of a run. *)
Definition existing_ids (existing_articles : list article) : gset string :=
  list_to_set (List.filter truthy ((fun a => get a "id") <$> existing_articles)).

Definition unique_new_articles (existing_articles all_new_articles : list article)
    : list article :=
  List.filter (fun a => negb (bool_decide (get a "id" ∈ existing_ids existing_articles)))
              all_new_articles.

Definition merge (existing_articles all_new_articles : list article) : list article :=
  existing_articles ++ unique_new_articles existing_articles all_new_articles.

Definition crawl_history_file (s : state) : path :=
  (data_dir s, "crawl_history.json").

(** The two targets that [__init__] registers, and the state it leaves:
    no identifier seen, no history, an empty accumulator. *)
Definition original : SpiderConfig :=
  {| section_id := "0157117713657966001"; topic_class_id := "0672154839186846001";
     name := "原始配置"; description := "原始的爬取配置";
     base_url := default_base_url |}.

Definition new_target : SpiderConfig :=
  {| section_id := "0101178462695499013"; topic_class_id := "0697178462739351002";
     name := "新目标配置"; description := "新增的爬取目标配置";
     base_url := default_base_url |}.

Definition init (dir : string) : state :=
  {| data_dir := dir; existing_article_ids := ∅; last_crawl_time := None;
     all_articles := 0%nat;
     configs := [("original", original); ("new_target", new_target)];
     current_config := original;
     heap := [[]]; log := []; requests := []; files := ∅; dirs := {[dir]} |}.

Section Engine.

(** [datetime.fromtimestamp(x, tz=timezone.utc)]; for [PyFloat_div1000 n]
    the verdict covers the division [n / 1000] too. *)
Variable fromtimestamp : number -> fromtimestamp_result.

(** The server's answer to a request, given the requests made before. *)
Variable server : list request -> request -> response.

(** The disk's verdict on an operation, in the current state. *)
Variable disk : state -> disk_op -> verdict.

Definition _parse_timestamp (timestamp_str : string) : M state (option datetime) :=
  if negb (truthy timestamp_str) then ret None
  else
    try_except
      match py_int timestamp_str with
      | None => raise ValueError
      | Some timestamp =>
          let timestamp :=
            if bool_decide (10 ^ 12 < timestamp)
            then PyFloat_div1000 timestamp else PyInt timestamp in
          match fromtimestamp timestamp with
          | Instant t => ret (Some t)
          | Raises e => raise e
          end
      end
      (fun e => match e with ValueError | TypeError => true | _ => false end)
      (fun _ => ret None).

(** The effective time of a record: [article_time], as [_is_article_newer]
    computes it. *)
Definition article_time (article : article) : M state (option datetime) :=
  publish_time <- _parse_timestamp (get article "publish_time");;
  update_time <- _parse_timestamp (get article "update_time");;
  ret (match update_time with Some t => Some t | None => publish_time end).

Definition _is_article_newer (article : article) (since_time : option datetime)
    : M state bool :=
  match since_time with
  | None => ret true
  | Some since_time =>
      article_time <- article_time article;;
      match article_time with
      | None => ret true
      | Some article_time => ret (bool_decide (since_time < article_time))
      end
  end.

(** The body of the [for] loop of [filter_new_articles], for one record. *)
Definition filter_article (since_time : option datetime) (article : article)
    : M state decision :=
  let article_id := get article "id" in
  ids <- gets existing_article_ids;;
  if truthy article_id && bool_decide (article_id ∈ ids) then ret Duplicate
  else
    newer <- _is_article_newer article since_time;;
    if negb newer then ret TooOld
    else
      when (truthy article_id)
        (modify (fun s => set_existing_article_ids ({[article_id]} ∪ existing_article_ids s) s));;
      ret Accepted.

Fixpoint filter_loop (since_time : option datetime) (articles new_articles : list article)
    (duplicate_count time_filtered_count : nat) : M state (list article * nat * nat) :=
  match articles with
  | [] => ret (new_articles, duplicate_count, time_filtered_count)
  | article :: rest =>
      d <- filter_article since_time article;;
      match d with
      | Duplicate =>
          filter_loop since_time rest new_articles (S duplicate_count) time_filtered_count
      | TooOld =>
          filter_loop since_time rest new_articles duplicate_count (S time_filtered_count)
      | Accepted =>
          filter_loop since_time rest (new_articles ++ [article])
                      duplicate_count time_filtered_count
      end
  end.

Definition filter_new_articles (articles : list article) (since_time : option datetime)
    : M state (list article) :=
  counted <- filter_loop since_time articles [] 0%nat 0%nat;;
  let '(new_articles, duplicate_count, time_filtered_count) := counted in
  when (bool_decide (0 < duplicate_count)%nat) (logger INFO (MsgDuplicates duplicate_count));;
  when (bool_decide (0 < time_filtered_count)%nat) (logger INFO (MsgOld time_filtered_count));;
  ret new_articles.

Definition get_page_data (page_index page_size : Z) (config : SpiderConfig)
    : M state payload :=
  let params := {| sectionId := section_id config; filterCondition := "1";
                   pageIndex := page_index; pageSize := page_size;
                   topicClassId := topic_class_id config |} in
  earlier <- gets requests;;
  modify (set_requests (earlier ++ [params]));;
  match server earlier params with
  | Json body => ret body
  | RequestException => logger ERROR MsgRequestFailed;; ret EmptyDict
  end.

(** The [if incremental or filter_time] statement of the loop body: what
    is kept of the page goes to [self.all_articles]; the value is the new
    [new_articles_count]. *)
Definition accumulate (incremental : bool) (filter_time : option datetime)
    (articles : list article) (l : locals) : M state nat :=
  if incremental || bool_decide (is_Some filter_time) then
    filtered_articles <- filter_new_articles articles filter_time;;
    self_all_articles <- gets all_articles;;
    extend self_all_articles filtered_articles;;
    logger INFO (MsgPageFiltered (page_index l) (length articles)
                                 (length filtered_articles));;
    when (incremental && bool_decide (length filtered_articles = 0%nat)
          && bool_decide (3 < page_index l))
         (logger INFO MsgNoNewArticles);;
    ret (new_articles_count l + length filtered_articles)%nat
  else
    self_all_articles <- gets all_articles;;
    extend self_all_articles articles;;
    logger INFO (MsgPage (page_index l) (length articles));;
    ret (new_articles_count l + length articles)%nat.

(** The loop body from [parse_articles] on: take the page, then the
    last-page test. *)
Definition take_page (incremental : bool) (filter_time : option datetime)
    (data : payload) (l : locals) : M state (flow * locals) :=
  let articles := parse_articles data in
  count <- accumulate incremental filter_time articles l;;
  let l := {| page_index := page_index l; total_count := total_count l;
              new_articles_count := count |} in
  if bool_decide (Z.of_nat (length articles) < page_size) then
    logger INFO (MsgLastPage (length articles) page_size);;
    ret (Break, l)
  else
    (* time.sleep(1) *)
    ret (Continue, {| page_index := page_index l + 1; total_count := total_count l;
                      new_articles_count := new_articles_count l |}).

(** One iteration of [while page_index <= max_pages]. *)
Definition loop_body (config : SpiderConfig) (incremental : bool)
    (filter_time : option datetime) (l : locals) : M state (flow * locals) :=
  logger INFO (MsgFetching (page_index l));;
  data <- get_page_data (page_index l) page_size config;;
  match data with
  | Dict (Some d) =>
      match resultList d with
      | Some _ =>
          match totalCount d with
          | Some count =>
              let total_pages := ceil_div count page_size in
              let l := {| page_index := page_index l; total_count := count;
                          new_articles_count := new_articles_count l |} in
              logger INFO (MsgTotal count total_pages);;
              if bool_decide (total_pages < page_index l) then
                logger INFO (MsgAllPages total_pages);;
                ret (Break, l)
              else take_page incremental filter_time data l
          | None => take_page incremental filter_time data l
          end
      | None =>
          logger WARNING (MsgInvalidPage (page_index l));;
          ret (Continue, {| page_index := page_index l + 1; total_count := total_count l;
                            new_articles_count := new_articles_count l |})
      end
  | _ =>
      logger WARNING (MsgInvalidPage (page_index l));;
      ret (Continue, {| page_index := page_index l + 1; total_count := total_count l;
                        new_articles_count := new_articles_count l |})
  end.

(** The [while] loop, unfolded at most [fuel] times; [while_loop_fuel]
    shows that [max_pages + 1 - page_index] unfoldings reach its end, so
    that the first branch of the [match] is never the one that answers. *)
Fixpoint while_loop (fuel : nat) (max_pages : Z) (config : SpiderConfig)
    (incremental : bool) (filter_time : option datetime) (l : locals) : M state locals :=
  if bool_decide (page_index l ≤ max_pages) then
    match fuel with
    | O => ret l
    | S fuel =>
        r <- loop_body config incremental filter_time l;;
        match fst r with
        | Break => ret (snd r)
        | Continue => while_loop fuel max_pages config incremental filter_time (snd r)
        end
    end
  else ret l.

(** The page loop, as the language defines it. *)
Inductive while_exec (max_pages : Z) (config : SpiderConfig) (incremental : bool)
    (filter_time : option datetime) : locals -> state -> outcome state locals -> Prop :=
| while_exit l s :
    ¬ page_index l ≤ max_pages ->
    while_exec max_pages config incremental filter_time l s (Ret l s)
| while_break l s l' s' :
    page_index l ≤ max_pages ->
    loop_body config incremental filter_time l s = Ret (Break, l') s' ->
    while_exec max_pages config incremental filter_time l s (Ret l' s')
| while_continue l s l' s' r :
    page_index l ≤ max_pages ->
    loop_body config incremental filter_time l s = Ret (Continue, l') s' ->
    while_exec max_pages config incremental filter_time l' s' r ->
    while_exec max_pages config incremental filter_time l s r
| while_raise l s e s' :
    page_index l ≤ max_pages ->
    loop_body config incremental filter_time l s = Raise e s' ->
    while_exec max_pages config incremental filter_time l s (Raise e s').

Definition get_all_articles (max_pages : Z) (config : option SpiderConfig)
    (incremental : bool) (since_time : option datetime) : M state loc :=
  config <- match config with
            | Some c => ret c
            | None => gets current_config
            end;;
  self_last_crawl_time <- gets last_crawl_time;;
  let filter_time :=
    match since_time with
    | Some t => Some t
    | None => if incremental then self_last_crawl_time else None
    end in
  logger INFO (MsgStart incremental (name config));;
  match filter_time with
  | Some t => logger INFO (MsgFilterTime t)
  | None => ret tt
  end;;
  l <- while_loop (Z.to_nat max_pages) max_pages config incremental filter_time
         {| page_index := 1; total_count := 0; new_articles_count := 0 |};;
  total <- gets (fun s => length (deref s (all_articles s)));;
  logger INFO (MsgFinished incremental total);;
  when incremental (logger INFO (MsgNewCount (new_articles_count l)));;
  gets all_articles.

Fixpoint batch_loop (config_names : list string) (max_pages : Z) (incremental : bool)
    (since_time : option datetime) (results : list (string * list article))
    : M state (list (string * list article)) :=
  match config_names with
  | [] => ret results
  | config_name :: rest =>
      self_configs <- gets configs;;
      match dict_get self_configs config_name with
      | None =>
          logger WARNING (MsgConfigMissing config_name);;
          batch_loop rest max_pages incremental since_time results
      | Some config =>
          logger INFO (MsgConfigStart config_name);;
          temp_articles <- gets (fun s => deref s (all_articles s));;
          empty <- new_list [];;
          modify (set_all_articles empty);;
          articles <- get_all_articles max_pages (Some config) incremental since_time;;
          copy <- gets (fun s => deref s articles);;
          let results := dict_set results config_name copy in
          joined <- new_list (temp_articles ++ copy);;
          modify (set_all_articles joined);;
          logger INFO (MsgConfigDone config_name (length copy));;
          (* time.sleep(2) *)
          batch_loop rest max_pages incremental since_time results
      end
  end.

Definition get_all_articles_batch (config_names : option (list string)) (max_pages : Z)
    (incremental : bool) (since_time : option datetime)
    : M state (list (string * list article)) :=
  config_names <- match config_names with
                  | Some l => ret l
                  | None => gets (fun s => fst <$> configs s)
                  end;;
  batch_loop config_names max_pages incremental since_time [].

(** *** The history store *)

Definition makedirs (directory : string) : M state unit :=
  fun s => match disk s (Makedirs directory) with
           | Done => Ret tt (set_dirs ({[directory]} ∪ dirs s) s)
           | _ => Raise OSError s
           end.

(** [with open(filepath, 'w') as f: json.dump(data, f)] *)
Definition write_json (filepath : path) (data : document) : M state unit :=
  fun s => match disk s (WriteFile filepath.1 filepath.2) with
           | Done => Ret tt (set_files (<[filepath := Complete data]> (files s)) s)
           | Refused => Raise OSError s
           | Interrupted => Raise OSError (set_files (<[filepath := Partial]> (files s)) s)
           end.

(** [utils/file_utils.py] *)
Definition ensure_dir (directory : string) : M state unit :=
  known <- gets dirs;;
  if bool_decide (directory ∈ known) then ret tt
  else makedirs directory;; logger INFO (MsgDirCreated directory).

Definition save_json (filepath : path) (data : document) : M state unit :=
  try_except
    (ensure_dir filepath.1;;
     write_json filepath data;;
     logger INFO (MsgJsonSaved filepath.1 filepath.2))
    (fun _ => true)
    (fun e => logger ERROR (MsgJsonFailed filepath.1 filepath.2);; raise e).

(** [now] is the reading of the clock, [datetime.now(timezone.utc)]. *)
Definition save_crawl_history (now : datetime) : M state unit :=
  total <- gets (fun s => length (deref s (all_articles s)));;
  let history := History now total in
  file <- gets crawl_history_file;;
  try_except
    (save_json file history;;
     logger INFO (MsgHistorySaved file.1 file.2))
    (fun _ => true)
    (fun _ => logger ERROR MsgHistoryFailed).

(** [save_crawl_history] of [main.py]: the file is written in place, and
    the handler names [IOError], which is [OSError]. *)
Definition main_save_crawl_history (now : datetime) : M state unit :=
  total <- gets (fun s => length (deref s (all_articles s)));;
  let history := History now total in
  file <- gets crawl_history_file;;
  try_except
    (write_json file history;;
     logger INFO (MsgHistorySaved file.1 file.2))
    (fun e => match e with OSError => true | _ => false end)
    (fun _ => logger ERROR MsgHistoryFailed).

End Engine.

(** * The vocabulary of the properties *)

Section Vocabulary.

Variable fromtimestamp : number -> fromtimestamp_result.
Variable server : list request -> request -> response.

Definition state_of {St A} (r : outcome St A) : St :=
  match r with Ret _ s => s | Raise _ s => s end.

(** A field that [int] does not read: absent or empty, or no integer. *)
Definition no_integer (str : string) : Prop := str = "" \/ py_int str = None.

(** The state after a record with identifier [i] is accepted. *)
Definition seen (i : string) (s : state) : state :=
  if truthy i then set_existing_article_ids ({[i]} ∪ existing_article_ids s) s else s.

(** The two counters only decide what is logged. *)
Definition filter_log (dups olds : nat) (s : state) : state :=
  let s := if bool_decide (0 < dups)%nat
           then set_log (log s ++ [(INFO, MsgDuplicates dups)]) s else s in
  if bool_decide (0 < olds)%nat
  then set_log (log s ++ [(INFO, MsgOld olds)]) s else s.

Definition params (config : SpiderConfig) (page_index : Z) : request :=
  {| sectionId := section_id config; filterCondition := "1";
     pageIndex := page_index; pageSize := page_size;
     topicClassId := topic_class_id config |}.

Definition payload_of (r : response) : payload :=
  match r with Json body => body | RequestException => EmptyDict end.

(** The records of a well-formed page. *)
Definition raw_records (data : payload) : option (list (gmap string string)) :=
  match data with
  | Dict (Some d) => resultList d
  | _ => None
  end.

Definition declared_total (data : payload) : option Z :=
  match data with
  | Dict (Some d) => totalCount d
  | _ => None
  end.

Definition next_page (l : locals) : locals :=
  {| page_index := page_index l + 1; total_count := total_count l;
     new_articles_count := new_articles_count l |}.

(** The state in which the answer to the request for a page is examined. *)
Definition fetched (config : SpiderConfig) (l : locals) (s : state) : state :=
  let s1 := set_requests (requests s ++ [params config (page_index l)])
              (set_log (log s ++ [(INFO, MsgFetching (page_index l))]) s) in
  match server (requests s) (params config (page_index l)) with
  | Json _ => s1
  | RequestException => set_log (log s1 ++ [(ERROR, MsgRequestFailed)]) s1
  end.

Definition answer (config : SpiderConfig) (l : locals) (s : state) : payload :=
  payload_of (server (requests s) (params config (page_index l))).

Definition rejected (since : option datetime) (s : state) (a : article) : Prop :=
  filter_article fromtimestamp since a s = Ret Duplicate s \/
  filter_article fromtimestamp since a s = Ret TooOld s.

(** What a page leaves alone. *)
Definition same_instance (s s' : state) : Prop :=
  data_dir s' = data_dir s /\ last_crawl_time s' = last_crawl_time s /\
  all_articles s' = all_articles s /\ configs s' = configs s /\
  current_config s' = current_config s /\ files s' = files s /\ dirs s' = dirs s.

Definition with_total (count : Z) (l : locals) : locals :=
  {| page_index := page_index l; total_count := count;
     new_articles_count := new_articles_count l |}.

(** A record read from an answer to one of the requests made for
    [config] after [before]. *)
Definition collected_from (config : SpiderConfig) (before after : list request)
    (a : article) : Prop :=
  exists k r,
    (length before ≤ k)%nat /\ after !! k = Some r /\
    sectionId r = section_id config /\ topicClassId r = topic_class_id config /\
    a ∈ parse_articles (payload_of (server (take k after) r)).

Definition record (id update_time publish_time : string) : article :=
  <["id" := id]> (<["update_time" := update_time]> {["publish_time" := publish_time]}).

(** The records of the incoming list that the merge keeps: those whose
    identifier is not a non-empty identifier of an existing record. *)
Definition kept (existing : list article) (a : article) : Prop :=
  ~ (get a "id" ≠ "" /\ get a "id" ∈ ((fun e : article => get e "id") <$> existing)).

(** [get_all_articles], around its loop. *)
Definition started (config : SpiderConfig) (incremental : bool)
    (filter_time : option datetime) (s : state) : state :=
  let s := set_log (log s ++ [(INFO, MsgStart incremental (name config))]) s in
  match filter_time with
  | Some t => set_log (log s ++ [(INFO, MsgFilterTime t)]) s
  | None => s
  end.

Definition finished (incremental : bool) (l : locals) (s : state) : state :=
  let s := set_log (log s ++ [(INFO, MsgFinished incremental
                                       (length (deref s (all_articles s))))]) s in
  if incremental then set_log (log s ++ [(INFO, MsgNewCount (new_articles_count l))]) s
  else s.

Definition chosen_filter_time (incremental : bool) (since_time : option datetime)
    (s : state) : option datetime :=
  match since_time with
  | Some t => Some t
  | None => if incremental then last_crawl_time s else None
  end.


Definition item (post_id : string) : gmap string string := {["postId" := post_id]}.

Definition first_page : list (gmap string string) :=
  item <$> ["1"; "2"; "3"; "4"; "5"; "6"; "7"; "8"; "9"; "10"; "11"; "12"].

Definition second_page : list (gmap string string) := item <$> ["13"; "14"].

Definition fourteen_server (earlier : list request) (r : request) : response :=
  Json (Dict (Some {| resultList :=
                        Some (if bool_decide (pageIndex r = 1) then first_page
                              else if bool_decide (pageIndex r = 2) then second_page
                              else []);
                      totalCount := Some 14 |})).

Definition first_locals : locals :=
  {| page_index := 1; total_count := 0; new_articles_count := 0 |}.

Definition second_locals : locals :=
  {| page_index := 2; total_count := 14; new_articles_count := 12 |}.

(** A server that serves the same twelve records on every page, and a
    spider that has seen them all. *)
Definition repeating_server (earlier : list request) (r : request) : response :=
  Json (Dict (Some {| resultList := Some first_page; totalCount := None |})).

Definition caught_up : state :=
  set_existing_article_ids
    (list_to_set ["1"; "2"; "3"; "4"; "5"; "6"; "7"; "8"; "9"; "10"; "11"; "12"])
    (init "data").

Definition fourth_locals : locals :=
  {| page_index := 4; total_count := 0; new_articles_count := 0 |}.




Definition history_of (now : Z) (s : state) : document :=
  History now (length (deref s (all_articles s))).

(** How a save ends: the file holds the history and the success is
    logged, or the last thing done is to log the failure. *)
Definition saved_or_logged (now : Z) (s s' : state) : Prop :=
  (files s' !! crawl_history_file s = Some (Complete (history_of now s)) /\
   last (log s') = Some (INFO, MsgHistorySaved (data_dir s) "crawl_history.json")) \/
  last (log s') = Some (ERROR, MsgHistoryFailed).

(** A disk that refuses every operation. *)
Definition read_only_disk (s : state) (op : disk_op) : verdict := Refused.

End Vocabulary.

(** * The rest of the class and of its helpers

    The methods and functions below are those of [spider.py] and
    [utils/file_utils.py] that the crawl engine above does not call. The
    texts of their log lines have no constructor in [message]; the line
    logged for a text is the parameter [text]. *)

Definition set_configs (v : list (string * SpiderConfig)) (s : state) : state :=
  {| data_dir := data_dir s; existing_article_ids := existing_article_ids s;
     last_crawl_time := last_crawl_time s; all_articles := all_articles s;
     configs := v; current_config := current_config s;
     heap := heap s; log := log s; requests := requests s;
     files := files s; dirs := dirs s |}.

Definition set_current_config (v : SpiderConfig) (s : state) : state :=
  {| data_dir := data_dir s; existing_article_ids := existing_article_ids s;
     last_crawl_time := last_crawl_time s; all_articles := all_articles s;
     configs := configs s; current_config := v;
     heap := heap s; log := log s; requests := requests s;
     files := files s; dirs := dirs s |}.

Definition set_last_crawl_time (v : option datetime) (s : state) : state :=
  {| data_dir := data_dir s; existing_article_ids := existing_article_ids s;
     last_crawl_time := v; all_articles := all_articles s;
     configs := configs s; current_config := current_config s;
     heap := heap s; log := log s; requests := requests s;
     files := files s; dirs := dirs s |}.

(** ** [SpiderConfig.to_dict] and [SpiderConfig.from_dict] *)

Definition to_dict (c : SpiderConfig) : gmap string string :=
  <["section_id" := section_id c]>
    (<["topic_class_id" := topic_class_id c]>
       (<["name" := name c]>
          (<["description" := description c]> {["base_url" := base_url c]}))).

(** [None] stands for the [KeyError] of [data['section_id']],
    [data['topic_class_id']] or [data['name']]. *)
Definition from_dict (data : gmap string string) : option SpiderConfig :=
  match data !! "section_id", data !! "topic_class_id", data !! "name" with
  | Some section, Some topic_class, Some n =>
      Some {| section_id := section; topic_class_id := topic_class; name := n;
              description := default "" (data !! "description");
              base_url := default default_base_url (data !! "base_url") |}
  | _, _, _ => None
  end.

(** ** [_parse_cookies] *)

Definition cons_head (c : ascii) (l : list string) : list string :=
  match l with
  | h :: t => String c h :: t
  | [] => [String c ""]
  end.

(** [s.split('; ')] *)
Fixpoint split_semicolon_space (s : string) : list string :=
  match s with
  | EmptyString => [""]
  | String c r =>
      match r with
      | String d r' =>
          if bool_decide (c = ";"%char) && bool_decide (d = " "%char)
          then "" :: split_semicolon_space r'
          else cons_head c (split_semicolon_space r)
      | EmptyString => cons_head c (split_semicolon_space r)
      end
  end.

(** [cookie.split('=', 1)] when ['=' in cookie], [None] when not. *)
Fixpoint split_equals (cookie : string) : option (string * string) :=
  match cookie with
  | EmptyString => None
  | String c r =>
      if bool_decide (c = "="%char) then Some ("", r)
      else match split_equals r with
           | Some (key, value) => Some (String c key, value)
           | None => None
           end
  end.

Definition _parse_cookies (cookies_str : string) : gmap string string :=
  if truthy cookies_str then
    foldl (fun (cookies : gmap string string) cookie =>
             match split_equals cookie with
             | Some (key, value) => <[key := value]> cookies
             | None => cookies
             end)
          ∅ (split_semicolon_space cookies_str)
  else ∅.

(** The header that carries the given cookies, ["k1=v1; k2=v2"]. *)
Fixpoint cookie_header (cookies : list (string * string)) : string :=
  match cookies with
  | [] => ""
  | [(key, value)] => key ++ "=" ++ value
  | (key, value) :: rest => key ++ "=" ++ value ++ "; " ++ cookie_header rest
  end.

Definition no_char (c : ascii) (s : string) : Prop :=
  c ∉ list_ascii_of_string s.

(** The pages asked for, from [first] on. *)
Definition page_requests (config : SpiderConfig) (first : Z) (count : nat) : list request :=
  (fun i : nat => params config (first + Z.of_nat i)) <$> seq 0 count.

(** The non-empty identifiers of a list of records, in order. *)
Definition identifiers (articles : list article) : list string :=
  List.filter truthy ((fun a : article => get a "id") <$> articles).

Section Helpers.

Variable fromtimestamp : number -> fromtimestamp_result.
Variable server : list request -> request -> response.
Variable disk : state -> disk_op -> verdict.

(** The log line for a text. *)
Variable text : string -> message.

(** Whether [open(filepath, 'r')] fails on a file that exists. *)
Variable unreadable : state -> path -> bool.

(** [spider.py] imports [get_logger], [ensure_dir], [save_json] and
    [save_csv] from [utils], and not [load_json]: where it calls
    [load_json] the name is unbound and the call raises [NameError], an
    [Exception] that [exn] does not list. It is this parameter, met only
    by handlers that catch every [Exception]. *)
Variable NameError : exn.

Definition set_config (config_name : string) : M state bool :=
  self_configs <- gets configs;;
  match dict_get self_configs config_name with
  | Some config =>
      modify (set_current_config config);;
      logger INFO (text ("已切换到配置: " ++ name config));;
      ret true
  | None =>
      logger WARNING (text ("配置 '" ++ config_name ++ "' 不存在"));;
      ret false
  end.

Definition add_config (config_name section topic_class n descr : string) : M state unit :=
  modify (fun s =>
            set_configs
              (dict_set (configs s) config_name
                 {| section_id := section; topic_class_id := topic_class; name := n;
                    description := descr; base_url := default_base_url |}) s);;
  logger INFO (text ("已添加配置: " ++ n)).

(** [load_json] of [utils/file_utils.py]. *)
Definition load_json (filepath : path) : M state (option document) :=
  present <- gets (fun s => files s !! filepath);;
  match present with
  | None =>
      logger WARNING (text ("JSON文件不存在: " ++ filepath.1 ++ "/" ++ filepath.2));;
      ret None
  | Some f =>
      denied <- gets (fun s => unreadable s filepath);;
      if denied then
        logger ERROR (text ("加载JSON文件失败 " ++ filepath.1 ++ "/" ++ filepath.2));;
        raise OSError
      else
        match f with
        | Complete d =>
            logger INFO (text ("JSON文件已加载: " ++ filepath.1 ++ "/" ++ filepath.2));;
            ret (Some d)
        | Partial =>
            logger ERROR (text ("JSON文件格式错误 " ++ filepath.1 ++ "/" ++ filepath.2));;
            raise ValueError
        end
  end.

(** [load_existing_data] of [spider.py]. *)
Definition load_existing_data (filename : option string) : M state (list article) :=
  let filename := default "articles_all.json" filename in
  dir <- gets data_dir;;
  let filepath : path := (dir, filename) in
  present <- gets (fun s => bool_decide (is_Some (files s !! filepath)));;
  if negb present then
    logger INFO (text ("数据文件 " ++ dir ++ "/" ++ filename ++ " 不存在，将进行全量爬取"));;
    ret []
  else
    try_except
      (articles <- raise NameError;;
       modify (set_existing_article_ids (existing_ids articles));;
       logger INFO (text "加载了已存在文章");;
       ret articles)
      (fun _ => true)
      (fun _ => logger ERROR (text "加载数据文件失败");; ret []).

(** [load_crawl_history] of [spider.py]; [history] is the value of
    [history.get('last_crawl_time')], read as a time. *)
Definition load_crawl_history : M state unit :=
  file <- gets crawl_history_file;;
  present <- gets (fun s => bool_decide (is_Some (files s !! file)));;
  if negb present then ret tt
  else
    try_except
      (history <- raise NameError;;
       match history with
       | Some last_crawl =>
           modify (set_last_crawl_time (Some last_crawl));;
           logger INFO (text "上次爬取时间")
       | None => ret tt
       end)
      (fun _ => true)
      (fun _ => logger ERROR (text "加载爬取历史失败")).

(** [incremental_crawl] of [spider.py]; [now] is the reading of the clock
    in [save_crawl_history]. *)
Definition incremental_crawl (now : datetime) (config_names : option (list string))
    (max_pages : Z) (load_existing : bool) : M state (list (string * list article)) :=
  logger INFO (text "=== 开始增量爬取 ===");;
  load_crawl_history;;
  existing_articles <- (if load_existing then load_existing_data None else ret []);;
  results <- get_all_articles_batch fromtimestamp server config_names max_pages true None;;
  match existing_articles with
  | [] => ret tt
  | _ :: _ =>
      logger INFO (text "合并已存在文章");;
      let all_new_articles := concat (snd <$> results) in
      combined <- new_list (existing_articles ++ all_new_articles);;
      modify (set_all_articles combined)
  end;;
  save_crawl_history disk now;;
  ret results.

End Helpers.

(** ** [save_to_json] of [spider.py] *)

Section Saving.

Variable disk : state -> disk_op -> verdict.
Variable text : string -> message.


End Saving.

(** * The vocabulary of the further properties *)

(** What [filter_new_articles] logs for its two counters. *)
Definition counts_logged (dups olds : nat) : list (level * message) :=
  (if bool_decide (0 < dups)%nat then [(INFO, MsgDuplicates dups)] else []) ++
  (if bool_decide (0 < olds)%nat then [(INFO, MsgOld olds)] else []).

(** A page that holds the same record twice, and the state after it is
    filtered by a new spider. *)
Definition twice_seven : list article := [record "7" "" ""; record "7" "" ""].

Definition seven_filtered : state :=
  set_log [(INFO, MsgDuplicates 1)] (seen "7" (init "data")).

(** The records with an empty identifier. *)
Definition anonymous (articles : list article) : list article :=
  List.filter (fun a => negb (truthy (get a "id"))) articles.


(** An exception that [fromtimestamp] raises and the handler of
    [_parse_timestamp] does not name. *)
Definition escapes (fromtimestamp : number -> fromtimestamp_result) (e : exn) : Prop :=
  e ≠ ValueError /\ e ≠ TypeError /\ exists x, fromtimestamp x = Raises e.


Definition zero_total_server (earlier : list request) (r : request) : response :=
  Json (Dict (Some {| resultList := Some first_page; totalCount := Some 0 |})).

(** The names of [config_names] that the spider knows, in order. *)
Definition known_names (s : state) (config_names : list string) : list string :=
  List.filter (fun n => bool_decide (is_Some (dict_get (configs s) n))) config_names.

(** The warnings of a batch for names it does not know. *)
Definition missing_logged (config_names : list string) : list (level * message) :=
  (fun n => (WARNING, MsgConfigMissing n)) <$> config_names.

(** A disk that carries out every operation, one on which every write
    breaks off, a file system on which every file can be read, and a log
    line for the texts. *)
Definition willing_disk (s : state) (op : disk_op) : verdict := Done.

Definition failing_disk (s : state) (op : disk_op) : verdict :=
  match op with
  | Makedirs _ => Done
  | WriteFile _ _ => Interrupted
  end.

Definition always_readable (s : state) (p : path) : bool := false.

Definition plain_text (t : string) : message := MsgRequestFailed.

(** What a failed save may have done to the files. *)
Definition untouched_or_partial (p : path) (s s' : state) : Prop :=
  files s' = files s \/ files s' = <[p := Partial]> (files s).

(** What a crawl that filters has done to the spider: the accumulator
    has grown by [added], the seen set by the identifiers of [added], which
    are pairwise distinct and were not in the seen set. *)
Definition tracked (s s' : state) (added : list article) : Prop :=
  heap s' = <[all_articles s := deref s (all_articles s) ++ added]> (heap s) /\
  all_articles s' = all_articles s /\
  existing_article_ids s' = existing_article_ids s ∪ existing_ids added /\
  NoDup (identifiers added) /\
  (forall i, i ∈ identifiers added -> i ∉ existing_article_ids s).

(** A cookie that the header carries unharmed: no [;] in its name or
    value, no [=] in its name. *)
Definition plain_cookie (cookie : string * string) : Prop :=
  no_char ";" cookie.1 /\ no_char "=" cookie.1 /\ no_char ";" cookie.2.

(** The keys of [to_dict]. *)
Definition config_keys : list string :=
  ["section_id"; "topic_class_id"; "name"; "description"; "base_url"].


(** Two states that differ in the log only. *)
Definition same_but_log (s s' : state) : Prop :=
  s' = set_log (log s') s.

(** * Properties *)

(** ** The outcome monad *)

Lemma bind_Ret {St A B} (c : M St A) (k : A -> M St B) s a s' :
  c s = Ret a s' -> bind c k s = k a s'.
Proof. intros H. unfold bind. now rewrite H. Qed.

Lemma bind_Ret_inv {St A B} (c : M St A) (k : A -> M St B) s b s2 :
  bind c k s = Ret b s2 -> exists a s1, c s = Ret a s1 /\ k a s1 = Ret b s2.
Proof.
  unfold bind. destruct (c s) as [a s1|e s1]; [eauto | discriminate].
Qed.

Lemma when_log (b : bool) lv m s :
  when b (logger lv m) s = Ret tt (if b then set_log (log s ++ [(lv, m)]) s else s).
Proof. destruct b; reflexivity. Qed.

(** One more statement of a method body whose effect is known. *)
Ltac step_in H :=
  first [ rewrite (bind_Ret _ _ _ _ _ (when_log _ _ _ _)) in H
        | erewrite bind_Ret in H by reflexivity ].

Ltac step :=
  first [ rewrite (bind_Ret _ _ _ _ _ (when_log _ _ _ _))
        | erewrite bind_Ret by reflexivity ].

(** ** Reading a timestamp *)

Section TimeFilter.

Variable fromtimestamp : number -> fromtimestamp_result.

Lemma _parse_timestamp_pure str s r :
  _parse_timestamp fromtimestamp str s = r -> state_of r = s.
Proof.
  intros <-. unfold _parse_timestamp, try_except, raise, ret.
  destruct (truthy str); simpl; [|reflexivity].
  destruct (py_int str) as [n|]; simpl; [|reflexivity].
  destruct (fromtimestamp _) as [t|[]]; reflexivity.
Qed.

Lemma _parse_timestamp_no_integer str s :
  no_integer str -> _parse_timestamp fromtimestamp str s = Ret None s.
Proof.
  intros [->|H]; [reflexivity|].
  unfold _parse_timestamp, try_except, raise, ret.
  destruct (truthy str); simpl; [|reflexivity].
  now rewrite H.
Qed.

Lemma article_time_pure a s r :
  article_time fromtimestamp a s = r -> state_of r = s.
Proof.
  intros <-. unfold article_time, bind.
  destruct (_parse_timestamp _ (get a "publish_time") s) as [p s1|e s1] eqn:E1;
    apply _parse_timestamp_pure in E1; simpl in E1; subst s1; [|reflexivity].
  destruct (_parse_timestamp _ (get a "update_time") s) as [u s1|e s1] eqn:E2;
    apply _parse_timestamp_pure in E2; simpl in E2; subst s1; reflexivity.
Qed.


Lemma _is_article_newer_unknown a since s :
  no_integer (get a "update_time") -> no_integer (get a "publish_time") ->
  _is_article_newer fromtimestamp a since s = Ret true s.
Proof.
  intros Hu Hp. destruct since as [since|]; [|reflexivity].
  unfold _is_article_newer, article_time, bind.
  rewrite (_parse_timestamp_no_integer _ s Hp), (_parse_timestamp_no_integer _ s Hu).
  reflexivity.
Qed.

Lemma filter_article_duplicate since a s :
  get a "id" ≠ "" -> get a "id" ∈ existing_article_ids s ->
  filter_article fromtimestamp since a s = Ret Duplicate s.
Proof.
  intros Hne Hin. unfold filter_article, bind, gets, truthy.
  rewrite !bool_decide_eq_true_2 by assumption. reflexivity.
Qed.

Lemma filter_article_fresh since a s b :
  get a "id" = "" \/ get a "id" ∉ existing_article_ids s ->
  _is_article_newer fromtimestamp a since s = Ret b s ->
  filter_article fromtimestamp since a s =
    if b then Ret Accepted (seen (get a "id") s) else Ret TooOld s.
Proof.
  intros Hid Hnew. unfold filter_article, bind, gets.
  replace (truthy (get a "id") && bool_decide (get a "id" ∈ existing_article_ids s))
    with false.
  2:{ symmetry. apply andb_false_iff. unfold truthy. destruct Hid as [->|H].
      - left. reflexivity.
      - right. now apply bool_decide_eq_false_2. }
  rewrite Hnew. destruct b; simpl; [|reflexivity].
  unfold seen, when, modify, ret. destruct (truthy (get a "id")); reflexivity.
Qed.

End TimeFilter.

Section Filter.

Variable fromtimestamp : number -> fromtimestamp_result.

Lemma _is_article_newer_pure a since s r :
  _is_article_newer fromtimestamp a since s = r -> state_of r = s.
Proof.
  intros <-. destruct since as [since|]; [|reflexivity].
  unfold _is_article_newer, bind.
  destruct (article_time fromtimestamp a s) as [[t|] s1|e s1] eqn:E;
    apply article_time_pure in E; simpl in E; subst s1; reflexivity.
Qed.

(** What [filter_article] answers, and the state it leaves. *)
Lemma filter_article_spec since a s d s1 :
  filter_article fromtimestamp since a s = Ret d s1 ->
  match d with
  | Accepted =>
      s1 = seen (get a "id") s /\
      ~ (get a "id" ≠ "" /\ get a "id" ∈ existing_article_ids s)
  | _ => s1 = s
  end.
Proof.
  unfold filter_article, bind, gets.
  destruct (truthy (get a "id") && bool_decide (get a "id" ∈ existing_article_ids s))
    eqn:Edup.
  - intros [= <- <-]. reflexivity.
  - destruct (_is_article_newer fromtimestamp a since s) as [b s2|e s2] eqn:En;
      [|discriminate].
    apply _is_article_newer_pure in En. simpl in En. subst s2.
    destruct b; simpl.
    + unfold seen, when, modify, ret.
      intros H. assert (d = Accepted /\ s1 = seen (get a "id") s) as [-> ->].
      { unfold seen. destruct (truthy (get a "id")); injection H as <- <-; auto. }
      split; [reflexivity|]. intros [Hne Hin].
      apply andb_false_iff in Edup as [E|E].
      * unfold truthy in E. apply bool_decide_eq_false_1 in E. auto.
      * apply bool_decide_eq_false_1 in E. auto.
    + intros [= <- <-]. reflexivity.
Qed.

Lemma seen_ids i s : existing_article_ids s ⊆ existing_article_ids (seen i s).
Proof. unfold seen. destruct (truthy i); simpl; set_solver. Qed.

Lemma seen_frame i s :
  seen i s = set_existing_article_ids (existing_article_ids (seen i s)) s.
Proof. unfold seen. destruct (truthy i); destruct s; reflexivity. Qed.

(** [filter_loop] appends accepted records of the page, in order; it
    only grows the seen set, and touches nothing else. *)
Lemma filter_loop_spec since articles :
  forall new_articles dups olds s new_articles' dups' olds' s',
  filter_loop fromtimestamp since articles new_articles dups olds s
    = Ret (new_articles', dups', olds') s' ->
  exists accepted,
    new_articles' = new_articles ++ accepted /\
    sublist accepted articles /\
    existing_article_ids s ⊆ existing_article_ids s' /\
    s' = set_existing_article_ids (existing_article_ids s') s /\
    (accepted = [] -> s' = s) /\
    (forall r, get r "id" ≠ "" -> get r "id" ∈ existing_article_ids s -> r ∉ accepted).
Proof.
  induction articles as [|a rest IH]; intros new dups olds s new' dups' olds' s' H.
  - injection H as <- <- <- <-. exists []. rewrite app_nil_r.
    repeat split; auto; try set_solver. destruct s; reflexivity.
  - simpl in H. apply bind_Ret_inv in H as (d & s1 & Hd & H).
    apply filter_article_spec in Hd.
    destruct d.
    + destruct Hd as [-> Hfresh].
      apply IH in H as (acc & -> & Hsub & Hids & Hframe & Hnil & Hex).
      exists (a :: acc). rewrite <- app_assoc. simpl.
      split; [reflexivity|]. split; [now constructor|].
      split; [etransitivity; [apply seen_ids|exact Hids]|].
      split; [rewrite Hframe at 1; rewrite (seen_frame _ s); reflexivity|].
      split; [discriminate|].
      intros r Hne Hin [->|Hr]%elem_of_cons; [apply Hfresh; auto|].
      apply (Hex r Hne); [|exact Hr]. now apply seen_ids.
    + subst s1. apply IH in H as (acc & -> & Hsub & Hids & Hframe & Hnil & Hex).
      exists acc. repeat split; auto. now constructor.
    + subst s1. apply IH in H as (acc & -> & Hsub & Hids & Hframe & Hnil & Hex).
      exists acc. repeat split; auto. now constructor.
Qed.



Lemma filter_new_articles_spec articles since s new_articles s' :
  filter_new_articles fromtimestamp articles since s = Ret new_articles s' ->
  exists dups olds s1,
    filter_loop fromtimestamp since articles [] 0%nat 0%nat s
      = Ret (new_articles, dups, olds) s1 /\
    s' = filter_log dups olds s1.
Proof.
  unfold filter_new_articles. intros H.
  apply bind_Ret_inv in H as ([[new dups] olds] & s1 & Hloop & H).
  exists dups, olds, s1.
  cbn beta iota in H.
  rewrite (bind_Ret _ _ _ _ _ (when_log _ _ _ _)) in H.
  rewrite (bind_Ret _ _ _ _ _ (when_log _ _ _ _)) in H.
  injection H as <- <-. split; [exact Hloop|]. reflexivity.
Qed.

End Filter.

(** ** One iteration of the page loop *)

Section Loop.

Variable fromtimestamp : number -> fromtimestamp_result.
Variable server : list request -> request -> response.

Lemma fetch_spec config l s :
  (logger INFO (MsgFetching (page_index l));;
   get_page_data server (page_index l) page_size config) s
  = Ret (answer server config l s) (fetched server config l s).
Proof.
  unfold bind, logger, modify, get_page_data, gets, bind, fetched, answer, params.
  simpl. destruct (server _ _); reflexivity.
Qed.

Lemma _parse_timestamp_indep str s s2 :
  _parse_timestamp fromtimestamp str s2 =
    match _parse_timestamp fromtimestamp str s with
    | Ret r _ => Ret r s2
    | Raise e _ => Raise e s2
    end.
Proof.
  unfold _parse_timestamp, try_except, raise, ret.
  destruct (truthy str); simpl; [|reflexivity].
  destruct (py_int str) as [n|]; simpl; [|reflexivity].
  destruct (fromtimestamp _) as [t|[]]; reflexivity.
Qed.

Lemma _is_article_newer_indep a since s s2 :
  _is_article_newer fromtimestamp a since s2 =
    match _is_article_newer fromtimestamp a since s with
    | Ret r _ => Ret r s2
    | Raise e _ => Raise e s2
    end.
Proof.
  destruct since as [since|]; [|reflexivity].
  unfold _is_article_newer, article_time, bind.
  rewrite (_parse_timestamp_indep (get a "publish_time") s s2).
  destruct (_parse_timestamp _ (get a "publish_time") s) as [p s1|e s1] eqn:E1;
    [|reflexivity].
  apply _parse_timestamp_pure in E1. simpl in E1. subst s1.
  rewrite (_parse_timestamp_indep (get a "update_time") s s2).
  destruct (_parse_timestamp _ (get a "update_time") s) as [[u|] s1|e s1] eqn:E2;
    try reflexivity; destruct p; reflexivity.
Qed.

(** A record the filter rejects is rejected in every state with the same
    seen set. *)
Lemma filter_article_rejected since a s d s2 :
  filter_article fromtimestamp since a s = Ret d s -> d ≠ Accepted ->
  existing_article_ids s2 = existing_article_ids s ->
  filter_article fromtimestamp since a s2 = Ret d s2.
Proof.
  unfold filter_article, bind, gets. intros H Hd ->.
  destruct (truthy (get a "id") && bool_decide (get a "id" ∈ existing_article_ids s)).
  { injection H as <-. reflexivity. }
  rewrite (_is_article_newer_indep a since s s2).
  destruct (_is_article_newer fromtimestamp a since s) as [[] s1|e s1]; simpl in *.
  - exfalso. unfold when, modify, ret in H.
    destruct (truthy (get a "id")); injection H as <-; congruence.
  - injection H as <-. reflexivity.
  - discriminate.
Qed.

Lemma filter_loop_rejected since articles s :
  Forall (rejected fromtimestamp since s) articles ->
  forall new_articles dups olds, exists dups' olds',
    filter_loop fromtimestamp since articles new_articles dups olds s
      = Ret (new_articles, dups', olds') s.
Proof.
  induction 1 as [|a rest Ha _ IH]; intros new dups olds; simpl.
  - eauto.
  - destruct Ha as [Ha|Ha]; rewrite (bind_Ret _ _ _ _ _ Ha); apply IH.
Qed.

Lemma filter_new_articles_rejected since articles s s1 :
  Forall (rejected fromtimestamp since s) articles ->
  existing_article_ids s1 = existing_article_ids s ->
  exists dups olds,
    filter_new_articles fromtimestamp articles since s1 = Ret [] (filter_log dups olds s1).
Proof.
  intros Hall Hids.
  assert (Forall (rejected fromtimestamp since s1) articles) as Hall1.
  { eapply Forall_impl; [exact Hall|]. intros a [Ha|Ha]; [left|right];
      eapply filter_article_rejected; eauto; discriminate. }
  destruct (filter_loop_rejected since articles s1 Hall1 [] 0%nat 0%nat)
    as (dups & olds & Hloop).
  exists dups, olds. unfold filter_new_articles.
  rewrite (bind_Ret _ _ _ _ _ Hloop). cbn beta iota.
  rewrite (bind_Ret _ _ _ _ _ (when_log _ _ _ _)).
  rewrite (bind_Ret _ _ _ _ _ (when_log _ _ _ _)). reflexivity.
Qed.

Lemma filter_log_fields dups olds s :
  heap (filter_log dups olds s) = heap s /\
  requests (filter_log dups olds s) = requests s /\
  existing_article_ids (filter_log dups olds s) = existing_article_ids s /\
  same_instance s (filter_log dups olds s).
Proof.
  unfold filter_log, same_instance. do 2 case_bool_decide; simpl; tauto.
Qed.

Lemma accumulate_spec incremental filter_time articles l s count s' :
  accumulate fromtimestamp incremental filter_time articles l s = Ret count s' ->
  exists added,
    sublist added articles /\
    (incremental || bool_decide (is_Some filter_time) = false -> added = articles) /\
    heap s' = <[all_articles s := deref s (all_articles s) ++ added]> (heap s) /\
    requests s' = requests s /\
    existing_article_ids s ⊆ existing_article_ids s' /\
    (added = [] -> existing_article_ids s' = existing_article_ids s) /\
    same_instance s s' /\
    (incremental = true -> added = [] -> 3 < page_index l ->
     (INFO, MsgNoNewArticles) ∈ log s') /\
    (forall r, get r "id" ≠ "" -> get r "id" ∈ existing_article_ids s ->
     incremental || bool_decide (is_Some filter_time) = true -> r ∉ added) /\
    (incremental || bool_decide (is_Some filter_time) = true ->
     exists s0, filter_new_articles fromtimestamp articles filter_time s = Ret added s0).
Proof.
  unfold accumulate. destruct (incremental || bool_decide (is_Some filter_time)) eqn:Emode.
  - intros H. apply bind_Ret_inv in H as (filtered & s1 & Hf & H).
    pose proof Hf as Hf0.
    apply filter_new_articles_spec in Hf as (dups & olds & s0 & Hloop & ->).
    apply filter_loop_spec in Hloop
      as (added & Hadded & Hsub & Hids & Hframe & Hnil & Hex).
    simpl in Hadded. subst filtered.
    destruct (filter_log_fields dups olds s0) as (Hh & Hr & Hi & Hsame).
    repeat step_in H. injection H as <- <-.
    assert (heap s0 = heap s /\ requests s0 = requests s /\ same_instance s s0)
      as (Hh0 & Hr0 & Hsame0).
    { rewrite Hframe. unfold same_instance. simpl. tauto. }
    set (t := filter_log dups olds s0) in *.
    assert (all_articles t = all_articles s) as Hall.
    { destruct Hsame as (_ & _ & -> & _). apply Hsame0. }
    exists added. split; [exact Hsub|]. split; [discriminate|].
    set (c := incremental && bool_decide (length added = 0%nat)
              && bool_decide (3 < page_index l)).
    assert (forall P : state -> Prop, forall x y : state,
               P x -> P y -> P (if c then x else y)) as Hif
      by (intros; destruct c; assumption).
    split.
    { apply Hif; simpl; unfold deref; rewrite Hall, Hh, Hh0; reflexivity. }
    split.
    { apply Hif; simpl; rewrite Hr, Hr0; reflexivity. }
    split.
    { apply Hif; simpl; rewrite Hi; exact Hids. }
    split.
    { intros Hnone. specialize (Hnil Hnone). subst s0.
      apply Hif; simpl; exact Hi. }
    split.
    { unfold same_instance in *. apply Hif; simpl; intuition congruence. }
    split.
    { intros -> -> Hp. subst c. simpl. rewrite (bool_decide_eq_true_2 _ Hp).
      simpl. apply elem_of_app. right. apply list_elem_of_singleton. reflexivity. }
    split; [|eauto].
    intros r Hne Hin _. exact (Hex r Hne Hin).
  - intros H. repeat step_in H. injection H as <- <-.
    exists articles. split; [reflexivity|]. split; [reflexivity|]. simpl.
    split; [reflexivity|]. split; [reflexivity|]. split; [reflexivity|].
    split; [reflexivity|]. split; [unfold same_instance; tauto|].
    split; [|split; discriminate].
    intros ->. simpl in Emode. discriminate.
Qed.

Lemma take_page_spec incremental filter_time data l s f l' s' :
  take_page fromtimestamp incremental filter_time data l s = Ret (f, l') s' ->
  exists added,
    sublist added (parse_articles data) /\
    (incremental || bool_decide (is_Some filter_time) = false ->
     added = parse_articles data) /\
    heap s' = <[all_articles s := deref s (all_articles s) ++ added]> (heap s) /\
    requests s' = requests s /\
    existing_article_ids s ⊆ existing_article_ids s' /\
    (added = [] -> existing_article_ids s' = existing_article_ids s) /\
    same_instance s s' /\
    (incremental = true -> added = [] -> 3 < page_index l ->
     (INFO, MsgNoNewArticles) ∈ log s') /\
    (forall r, get r "id" ≠ "" -> get r "id" ∈ existing_article_ids s ->
     incremental || bool_decide (is_Some filter_time) = true -> r ∉ added) /\
    (incremental || bool_decide (is_Some filter_time) = true ->
     exists s0, filter_new_articles fromtimestamp (parse_articles data) filter_time s
                = Ret added s0) /\
    f = (if bool_decide (Z.of_nat (length (parse_articles data)) < page_size)
         then Break else Continue) /\
    page_index l' = match f with
                    | Break => page_index l
                    | Continue => page_index l + 1
                    end.
Proof.
  unfold take_page. intros H.
  apply bind_Ret_inv in H as (count & s1 & Hcount & H).
  apply accumulate_spec in Hcount
    as (added & Hsub & Hfull & Hheap & Hreq & Hids & Hnil & Hsame & Hmsg & Hex & Hfil).
  exists added.
  case_bool_decide as Hshort.
  - repeat step_in H. injection H as <- <- <-. simpl.
    unfold same_instance in *. repeat split; try tauto.
    intros ? ? ?. apply elem_of_app. left. auto.
  - injection H as <- <- <-. simpl.
    unfold same_instance in *. repeat split; try tauto.
Qed.

Lemma fetched_fields config l s :
  heap (fetched server config l s) = heap s /\
  requests (fetched server config l s) = requests s ++ [params config (page_index l)] /\
  existing_article_ids (fetched server config l s) = existing_article_ids s /\
  same_instance s (fetched server config l s).
Proof.
  unfold fetched, same_instance. destruct (server _ _); simpl; tauto.
Qed.

(** The iteration, by the answer of the server. *)
Lemma loop_body_unfold config incremental filter_time l s :
  loop_body fromtimestamp server config incremental filter_time l s =
    let data := answer server config l s in
    let s1 := fetched server config l s in
    match raw_records data with
    | None =>
        Ret (Continue, next_page l)
            (set_log (log s1 ++ [(WARNING, MsgInvalidPage (page_index l))]) s1)
    | Some _ =>
        match declared_total data with
        | Some count =>
            let s2 := set_log (log s1 ++ [(INFO, MsgTotal count (ceil_div count page_size))])
                              s1 in
            if bool_decide (ceil_div count page_size < page_index l) then
              Ret (Break, with_total count l)
                  (set_log (log s2 ++ [(INFO, MsgAllPages (ceil_div count page_size))]) s2)
            else take_page fromtimestamp incremental filter_time data (with_total count l) s2
        | None => take_page fromtimestamp incremental filter_time data l s1
        end
    end.
Proof.
  unfold loop_body, bind at 1 2.
  pose proof (fetch_spec config l s) as Hf. unfold bind at 1 in Hf.
  destruct (logger INFO (MsgFetching (page_index l)) s) as [[] s0|e s0]; [|discriminate].
  rewrite Hf. cbn zeta.
  destruct (answer server config l s) as [|[d|]]; try reflexivity.
  simpl. destruct (resultList d); [|reflexivity].
  destruct (totalCount d) as [count|]; [|reflexivity].
  step. simpl. case_bool_decide; [|reflexivity].
  step. reflexivity.
Qed.

Lemma insert_extend_nil (h : list (list article)) (i : nat) :
  <[i := default [] (h !! i) ++ []]> h = h.
Proof.
  rewrite app_nil_r. destruct (h !! i) as [x|] eqn:E; simpl.
  - now apply list_insert_id.
  - apply list_insert_ge. now apply lookup_ge_None.
Qed.

(** What an iteration that returns has done. *)
Lemma loop_body_spec config incremental filter_time l s f l' s' :
  loop_body fromtimestamp server config incremental filter_time l s = Ret (f, l') s' ->
  exists added,
    sublist added (parse_articles (answer server config l s)) /\
    heap s' = <[all_articles s := deref s (all_articles s) ++ added]> (heap s) /\
    requests s' = requests s ++ [params config (page_index l)] /\
    existing_article_ids s ⊆ existing_article_ids s' /\
    (added = [] -> existing_article_ids s' = existing_article_ids s) /\
    same_instance s s' /\
    page_index l' = match f with
                    | Break => page_index l
                    | Continue => page_index l + 1
                    end.
Proof.
  rewrite loop_body_unfold. cbn zeta.
  destruct (fetched_fields config l s) as (Hh & Hr & Hi & Hsame).
  set (s1 := fetched server config l s) in *. set (data := answer server config l s).
  assert (forall l0 s2, heap s2 = heap s -> requests s2 = requests s1 ->
            existing_article_ids s2 = existing_article_ids s -> same_instance s s2 ->
            page_index l0 = page_index l ->
            take_page fromtimestamp incremental filter_time data l0 s2 = Ret (f, l') s' ->
            exists added,
              sublist added (parse_articles data) /\
              heap s' = <[all_articles s := deref s (all_articles s) ++ added]> (heap s) /\
              requests s' = requests s ++ [params config (page_index l)] /\
              existing_article_ids s ⊆ existing_article_ids s' /\
              (added = [] -> existing_article_ids s' = existing_article_ids s) /\
              same_instance s s' /\
              page_index l' = match f with
                              | Break => page_index l
                              | Continue => page_index l + 1
                              end) as Htake.
  { intros l0 s2 Hh2 Hr2 Hi2 Hsame2 Hl0 H.
    apply take_page_spec in H
      as (added & Hsub & _ & Hheap & Hreq & Hids & Hnil & Hsame' & _ & _ & _ & _ & Hpage).
    exists added. unfold same_instance, deref in *.
    destruct Hsame2 as (? & ? & Hall & ?).
    rewrite Hall, Hh2 in Hheap. rewrite Hi2 in Hids, Hnil. rewrite Hl0 in Hpage.
    repeat split; try tauto; try congruence; intuition congruence. }
  destruct (raw_records data) as [items|].
  - destruct (declared_total data) as [count|].
    + case_bool_decide.
      * intros [= <- <- <-]. exists []. simpl. unfold deref.
        rewrite insert_extend_nil. unfold same_instance in *.
        repeat split; first [apply sublist_nil_l | rewrite Hi; reflexivity | tauto].
      * apply Htake; unfold same_instance in *; simpl; tauto.
    + apply Htake; unfold same_instance in *; simpl; tauto.
  - intros [= <- <- <-]. exists []. simpl. unfold deref.
    rewrite insert_extend_nil. unfold same_instance in *.
    repeat split; first [apply sublist_nil_l | rewrite Hi; reflexivity | tauto].
Qed.

(** ** The page loop *)

(** [fuel] unfoldings are enough once they cover the pages left. *)
Lemma while_loop_fuel config incremental filter_time max_pages fuel :
  forall l s,
  (Z.to_nat (max_pages + 1 - page_index l) ≤ fuel)%nat ->
  while_exec fromtimestamp server max_pages config incremental filter_time l s
    (while_loop fromtimestamp server fuel max_pages config incremental filter_time l s).
Proof.
  induction fuel as [|fuel IH]; intros l s Hfuel; simpl; case_bool_decide as Hle.
  - lia.
  - now constructor.
  - unfold bind.
    destruct (loop_body fromtimestamp server config incremental filter_time l s)
      as [[f l'] s'|e s'] eqn:Hbody.
    + destruct f; simpl.
      * now apply while_break with (1 := Hle).
      * apply while_continue with (1 := Hle) (2 := Hbody). apply IH.
        apply loop_body_spec in Hbody as (_ & _ & _ & _ & _ & _ & _ & Hp). lia.
    + now apply while_raise.
  - now constructor.
Qed.

Lemma while_exec_deterministic config incremental filter_time max_pages l s r1 r2 :
  while_exec fromtimestamp server max_pages config incremental filter_time l s r1 ->
  while_exec fromtimestamp server max_pages config incremental filter_time l s r2 ->
  r1 = r2.
Proof.
  intros H1. revert r2.
  induction H1 as [l s Hgt|l s l' s' Hle Hb|l s l' s' r Hle Hb _ IH|l s e s' Hle Hb];
    intros r2 H2; inversion H2; subst; try contradiction; try congruence.
  apply IH. congruence.
Qed.

Lemma collected_from_grows config before after more a :
  collected_from server config before after a ->
  collected_from server config before (after ++ more) a.
Proof.
  intros (k & r & Hk & Hr & H1 & H2 & Ha). exists k, r.
  assert (k < length after)%nat by (eapply lookup_lt_Some; eauto).
  repeat split; auto.
  - rewrite lookup_app_l; auto.
  - rewrite take_app_le by lia. exact Ha.
Qed.

Lemma collected_from_earlier config before more after a :
  collected_from server config (before ++ more) after a ->
  collected_from server config before after a.
Proof.
  intros (k & r & Hk & H). exists k, r. split; [|exact H].
  rewrite length_app in Hk. lia.
Qed.

Lemma extend_extend (h : list (list article)) (i : nat) (x y : list article) :
  let h1 := <[i := default [] (h !! i) ++ x]> h in
  <[i := default [] (h1 !! i) ++ y]> h1 = <[i := default [] (h !! i) ++ (x ++ y)]> h.
Proof.
  cbn zeta. destruct (decide (i < length h)%nat) as [Hlt|Hge].
  - rewrite list_lookup_insert_eq by exact Hlt. simpl.
    rewrite list_insert_insert_eq. now rewrite app_assoc.
  - assert (forall v, <[i := v]> h = h) as Hnop
      by (intros; apply list_insert_ge; lia).
    now rewrite !Hnop.
Qed.

Lemma while_loop_spec config incremental filter_time max_pages fuel :
  forall l s l' s',
  while_loop fromtimestamp server fuel max_pages config incremental filter_time l s
    = Ret l' s' ->
  exists collected sent,
    heap s' = <[all_articles s := deref s (all_articles s) ++ collected]> (heap s) /\
    requests s' = requests s ++ sent /\
    existing_article_ids s ⊆ existing_article_ids s' /\
    same_instance s s' /\
    Forall (collected_from server config (requests s) (requests s')) collected.
Proof.
  assert (forall s, exists collected sent : list _,
            heap s = <[all_articles s := deref s (all_articles s) ++ collected]> (heap s) /\
            requests s = requests s ++ sent /\
            existing_article_ids s ⊆ existing_article_ids s /\
            same_instance s s /\
            Forall (collected_from server config (requests s) (requests s)) collected) as Hrefl.
  { intros s. exists [], []. unfold deref. rewrite insert_extend_nil, app_nil_r.
    unfold same_instance. repeat split; auto. }
  induction fuel as [|fuel IH]; intros l s l' s'; simpl; case_bool_decide as Hle;
    try (intros [= <- <-]; apply Hrefl).
  intros H. apply bind_Ret_inv in H as ([f l1] & s1 & Hbody & H). simpl in H.
  apply loop_body_spec in Hbody
    as (added & Hsub & Hheap & Hreq & Hids & _ & Hsame & _).
  assert (Forall (collected_from server config (requests s) (requests s1)) added) as Hfrom.
  { apply Forall_forall. intros a Ha. exists (length (requests s)), (params config (page_index l)).
    rewrite Hreq. repeat split; auto.
    - rewrite lookup_app_r by lia. now rewrite Nat.sub_diag.
    - rewrite take_app_length. eapply elem_of_sublist; eauto. }
  destruct f.
  - injection H as <- <-. exists added, [params config (page_index l)]. auto.
  - apply IH in H as (collected & sent & Hheap' & Hreq' & Hids' & Hsame' & Hfrom').
    exists (added ++ collected), ([params config (page_index l)] ++ sent).
    assert (all_articles s1 = all_articles s) as Hall by apply Hsame.
    split.
    { rewrite Hheap'. unfold deref. rewrite Hall, Hheap. unfold deref.
      apply extend_extend. }
    split; [rewrite Hreq', Hreq, app_assoc; reflexivity|].
    split; [etransitivity; eassumption|].
    split; [unfold same_instance in *; intuition congruence|].
    apply Forall_app. split.
    + eapply Forall_impl; [exact Hfrom|]. intros a Ha. rewrite Hreq'.
      now apply collected_from_grows.
    + eapply Forall_impl; [exact Hfrom'|]. intros a Ha. rewrite Hreq in Ha.
      eapply collected_from_earlier; eauto.
Qed.

End Loop.

(** ** The dedup/time filter *)




(** C3. A record whose identifier is not empty and already in the seen set
    is rejected whatever [since_time] is: the filter leaves the state as
    it was; filtering the record alone returns the empty list and only
    logs the duplicate; and the record is in no list that
    [filter_new_articles] returns. *)
Theorem dedup_correctness fromtimestamp (r : article) (since_time : option Z)
    (s : state) :
  get r "id" ≠ "" -> get r "id" ∈ existing_article_ids s ->
  filter_article fromtimestamp since_time r s = Ret Duplicate s /\
  filter_new_articles fromtimestamp [r] since_time s
    = Ret [] (set_log (log s ++ [(INFO, MsgDuplicates 1)]) s) /\
  (forall articles new_articles s',
     filter_new_articles fromtimestamp articles since_time s = Ret new_articles s' ->
     r ∉ new_articles).
Proof.
  intros Hne Hin.
  pose proof (filter_article_duplicate fromtimestamp since_time r s Hne Hin) as Hdup.
  split; [exact Hdup|]. split.
  { unfold filter_new_articles. simpl filter_loop.
    unfold bind at 1 2. rewrite Hdup. reflexivity. }
  intros articles new s' H.
  apply filter_new_articles_spec in H as (dups & olds & s1 & Hloop & _).
  apply filter_loop_spec in Hloop as (acc & -> & _ & _ & _ & _ & Hex).
  simpl. now apply Hex.
Qed.

Lemma dedup_correctness_witness :
  let r := record "7" "1700000001" "" in
  let s := set_existing_article_ids {["7"]} (init "data") in
  filter_article fromtimestamp_posix None r s = Ret Duplicate s /\
  (forall new_articles s',
     filter_new_articles fromtimestamp_posix [record "8" "" ""; r] None s
       = Ret new_articles s' ->
     r ∉ new_articles).
Proof.
  intros r s.
  assert (get r "id" ≠ "") as Hne by (vm_compute; discriminate).
  assert (get r "id" ∈ existing_article_ids s) as Hin
    by (change (get r "id" ∈ ({["7"]} : gset string));
        apply elem_of_singleton_2; reflexivity).
  destruct (dedup_correctness fromtimestamp_posix r None s Hne Hin) as (H1 & _ & H2).
  split; [exact H1|]. intros new s'. apply H2.
Defined.

(** C7. A record whose update time and publish time are both absent,
    empty or no integer is accepted for every [since_time], set or not,
    unless it is a duplicate. *)
Theorem unknown_time_inclusion fromtimestamp (a : article) (since_time : option Z)
    (s : state) :
  no_integer (get a "update_time") -> no_integer (get a "publish_time") ->
  get a "id" = "" \/ get a "id" ∉ existing_article_ids s ->
  filter_article fromtimestamp since_time a s = Ret Accepted (seen (get a "id") s).
Proof.
  intros Hu Hp Hid.
  exact (filter_article_fresh fromtimestamp since_time a s true Hid
           (_is_article_newer_unknown fromtimestamp a since_time s Hu Hp)).
Qed.

Lemma unknown_time_inclusion_witness :
  let a := record "7" "yesterday" "" in
  filter_article fromtimestamp_posix (Some (1700000000 * second)) a (init "data")
    = Ret Accepted (seen "7" (init "data")).
Proof.
  intros a.
  apply (unknown_time_inclusion fromtimestamp_posix a (Some (1700000000 * second))
           (init "data")).
  - right. reflexivity.
  - left. reflexivity.
  - right. exact (not_elem_of_empty (get a "id")).
Defined.

(** ** Merge *)

Lemma elem_of_existing_ids (i : string) (existing : list article) :
  i ∈ existing_ids existing <-> i ≠ "" /\ exists e, e ∈ existing /\ get e "id" = i.
Proof.
  unfold existing_ids. rewrite elem_of_list_to_set, list_elem_of_In, List.filter_In.
  rewrite <- list_elem_of_In, list_elem_of_fmap. unfold truthy.
  rewrite bool_decide_eq_true. split.
  - intros [(e & -> & He) Hne]. eauto.
  - intros [Hne (e & He & <-)]. eauto.
Qed.

Lemma unique_new_articles_kept (existing incoming : list article) :
  unique_new_articles existing incoming = filter (kept existing) incoming.
Proof.
  unfold unique_new_articles.
  induction incoming as [|a rest IH]; [reflexivity|].
  simpl. rewrite filter_cons, IH.
  assert (get a "id" ∈ existing_ids existing <->
          get a "id" ≠ "" /\ get a "id" ∈ ((fun e : article => get e "id") <$> existing))
    as Hin.
  { rewrite elem_of_existing_ids, list_elem_of_fmap.
    split; intros [Hne (e & H1 & H2)]; split; eauto. }
  case_bool_decide as Hmem; destruct (decide (kept existing a)) as [Hk|Hk];
    unfold kept in Hk;
    simpl; try reflexivity; tauto.
Qed.

(** C4. The merged list is the existing list followed by the kept records
    of the incoming list, each part in its own order; a record of the
    incoming list with an empty identifier is kept; and Scenario D. *)
Theorem merge_characterization :
  (forall existing incoming : list article,
     merge existing incoming = existing ++ filter (kept existing) incoming) /\
  (forall (existing : list article) (a : article), get a "id" = "" -> kept existing a) /\
  merge [record "1" "" ""; record "2" "" ""] [record "2" "" ""; record "3" "" ""]
    = [record "1" "" ""; record "2" "" ""; record "3" "" ""].
Proof.
  split; [|split].
  - intros existing incoming. unfold merge. now rewrite unique_new_articles_kept.
  - intros existing a Hid [Hne _]. contradiction.
  - reflexivity.
Qed.

Lemma merge_characterization_witness :
  kept [record "1" "" ""] (record "" "" "") /\
  merge [record "1" "" ""] [record "" "" ""; record "1" "" ""]
    = [record "1" "" ""] ++ filter (kept [record "1" "" ""])
                                   [record "" "" ""; record "1" "" ""].
Proof.
  destruct merge_characterization as (H1 & H2 & _). split.
  - apply (H2 [record "1" "" ""] (record "" "" "")). reflexivity.
  - apply (H1 [record "1" "" ""] [record "" "" ""; record "1" "" ""]).
Defined.

Lemma unique_new_articles_existing (existing : list article) :
  Forall (fun a => get a "id" ≠ "") existing ->
  forall part, part ⊆ existing -> unique_new_articles existing part = [].
Proof.
  intros Hall part. unfold unique_new_articles.
  induction part as [|a rest IH]; intros Hsub; [reflexivity|]. simpl.
  assert (a ∈ existing) as Ha by (apply Hsub; left).
  rewrite bool_decide_eq_true_2.
  - apply IH. intros x Hx. apply Hsub. now right.
  - apply elem_of_existing_ids. split; [|eauto].
    rewrite Forall_forall in Hall. now apply Hall.
Qed.

Lemma unique_new_articles_twice (existing incoming : list article) :
  unique_new_articles existing (unique_new_articles existing incoming)
  = unique_new_articles existing incoming.
Proof.
  unfold unique_new_articles. induction incoming as [|a rest IH]; [reflexivity|].
  simpl. destruct (negb _) eqn:E; [|exact IH]. simpl. now rewrite E, IH.
Qed.

(** C2, as amended. When no record of [X] has an empty identifier, merging
    [X] with the merge of [X] and [Y] changes nothing; [Y] is any list. *)
Theorem merge_idempotent (X Y : list article) :
  Forall (fun a => get a "id" ≠ "") X ->
  merge X (merge X Y) = merge X Y.
Proof.
  intros Hall. unfold merge at 1 3. f_equal. unfold merge.
  unfold unique_new_articles at 1. rewrite List.filter_app.
  fold (unique_new_articles X X).
  fold (unique_new_articles X (unique_new_articles X Y)).
  rewrite (unique_new_articles_existing X Hall X) by reflexivity.
  apply unique_new_articles_twice.
Qed.

Lemma merge_idempotent_witness :
  let X := [record "1" "" ""; record "2" "" ""] in
  let Y := [record "2" "" ""; record "" "" ""; record "3" "" ""] in
  merge X (merge X Y) = merge X Y.
Proof.
  intros X Y. apply (merge_idempotent X Y).
  repeat constructor; vm_compute; discriminate.
Defined.

(** C2 as stated fails as soon as [X] holds a record with an empty
    identifier: that record is never taken for a duplicate, and the second
    merge appends it again. *)
Lemma merge_not_idempotent :
  merge [record "" "" ""] (merge [record "" "" ""] [])
  ≠ merge [record "" "" ""] [].
Proof.
  intros H. apply (f_equal length) in H. vm_compute in H. discriminate.
Qed.

(** The amendment is the least one: an empty identifier in [X] always
    breaks the equation. *)
Lemma merge_idempotent_only_if (X Y : list article) :
  merge X (merge X Y) = merge X Y -> Forall (fun a => get a "id" ≠ "") X.
Proof.
  unfold merge at 1 3. intros H%app_inv_head. unfold merge in H.
  unfold unique_new_articles at 1 in H. rewrite List.filter_app in H.
  fold (unique_new_articles X X) in H.
  fold (unique_new_articles X (unique_new_articles X Y)) in H.
  rewrite unique_new_articles_twice in H.
  assert (unique_new_articles X X = []) as Hnil.
  { apply (f_equal length) in H. rewrite length_app in H.
    destruct (unique_new_articles X X); [reflexivity|simpl in H; lia]. }
  apply Forall_forall. intros a Ha Hid.
  assert (a ∈ unique_new_articles X X) as Hin.
  { rewrite unique_new_articles_kept. apply list_elem_of_filter. split; [|exact Ha].
    intros [Hne _]. contradiction. }
  rewrite Hnil in Hin. inversion Hin.
Qed.

(** ** The crawl *)

Section Crawl.

Variable fromtimestamp : number -> fromtimestamp_result.
Variable server : list request -> request -> response.

Lemma parse_articles_raw data items :
  raw_records data = Some items -> parse_articles data = parse_item <$> items.
Proof.
  destruct data as [|[d|]]; simpl; try discriminate. now intros ->.
Qed.

Lemma raw_records_None data :
  raw_records data = None <->
  data = EmptyDict \/ data = Dict None \/
  exists d, data = Dict (Some d) /\ resultList d = None.
Proof.
  destruct data as [|[d|]]; simpl; split; auto.
  - intros H. right. right. eauto.
  - intros [H|[H|(d' & [= <-] & H)]]; [discriminate..|exact H].
Qed.


Lemma loop_body_short config incremental filter_time l s items f l' s' :
  raw_records (answer server config l s) = Some items ->
  Z.of_nat (length items) < page_size ->
  loop_body fromtimestamp server config incremental filter_time l s = Ret (f, l') s' ->
  f = Break.
Proof.
  intros Hraw Hshort. rewrite loop_body_unfold. cbn zeta. rewrite Hraw.
  assert (forall l0 s0,
            take_page fromtimestamp incremental filter_time (answer server config l s) l0 s0
              = Ret (f, l') s' -> f = Break) as Htake.
  { intros l0 s0 H. apply take_page_spec in H
      as (added & _ & _ & _ & _ & _ & _ & _ & _ & _ & _ & -> & _).
    rewrite (parse_articles_raw _ _ Hraw), length_fmap.
    now rewrite bool_decide_eq_true_2. }
  destruct (declared_total _) as [count|]; [|apply Htake].
  case_bool_decide; [|apply Htake]. now intros [= <- _ _].
Qed.

(** The loop ends with an iteration that breaks or raises. *)
Lemma while_loop_last config incremental filter_time max_pages fuel l s :
  page_index l ≤ max_pages ->
  (forall l' s',
     loop_body fromtimestamp server config incremental filter_time l s
       ≠ Ret (Continue, l') s') ->
  while_loop fromtimestamp server (S fuel) max_pages config incremental filter_time l s =
    match loop_body fromtimestamp server config incremental filter_time l s with
    | Ret r s' => Ret (snd r) s'
    | Raise e s' => Raise e s'
    end.
Proof.
  intros Hle Hlast. simpl. rewrite bool_decide_eq_true_2 by exact Hle. unfold bind.
  destruct (loop_body _ _ _ _ _ _ _) as [[[] l'] s'|e s']; try reflexivity.
  now destruct (Hlast l' s').
Qed.

Lemma while_loop_next config incremental filter_time max_pages fuel l s l' s' :
  page_index l ≤ max_pages ->
  loop_body fromtimestamp server config incremental filter_time l s
    = Ret (Continue, l') s' ->
  while_loop fromtimestamp server (S fuel) max_pages config incremental filter_time l s =
    while_loop fromtimestamp server fuel max_pages config incremental filter_time l' s'.
Proof.
  intros Hle Hbody. simpl. rewrite bool_decide_eq_true_2 by exact Hle.
  now rewrite (bind_Ret _ _ _ _ _ Hbody).
Qed.

(** A page taken without a filter. *)
Lemma take_page_full data l s :
  exists l' s',
    take_page fromtimestamp false None data l s =
      Ret (if bool_decide (Z.of_nat (length (parse_articles data)) < page_size)
           then Break else Continue, l') s'.
Proof.
  unfold take_page, accumulate. simpl. repeat step.
  case_bool_decide; [repeat step|]; eauto.
Qed.

(** A page of which the filter keeps nothing. *)
Lemma take_page_nothing incremental filter_time data l s0 s :
  incremental || bool_decide (is_Some filter_time) = true ->
  Forall (rejected fromtimestamp filter_time s0) (parse_articles data) ->
  existing_article_ids s = existing_article_ids s0 ->
  exists l' s',
    take_page fromtimestamp incremental filter_time data l s =
      Ret (if bool_decide (Z.of_nat (length (parse_articles data)) < page_size)
           then Break else Continue, l') s' /\
    heap s' = heap s /\ existing_article_ids s' = existing_article_ids s /\
    (incremental = true -> 3 < page_index l -> (INFO, MsgNoNewArticles) ∈ log s').
Proof.
  intros Hmode Hall Hids.
  destruct (filter_new_articles_rejected fromtimestamp filter_time _ s0 s Hall Hids)
    as (dups & olds & Hfilter).
  assert (exists f l' s',
            take_page fromtimestamp incremental filter_time data l s = Ret (f, l') s')
    as (f & l' & s' & Htake).
  { unfold take_page, accumulate. rewrite Hmode.
    unfold bind at 1 2. rewrite Hfilter.
    repeat step. unfold ret at 1. cbn iota beta.
    destruct (bool_decide (Z.of_nat (length (parse_articles data)) < page_size));
      [repeat step|]; eauto. }
  exists l', s'. pose proof Htake as Hspec. apply take_page_spec in Hspec
    as (added & _ & _ & Hheap & _ & _ & Hnil & _ & Hmsg & _ & Hfil & -> & _).
  destruct (Hfil Hmode) as (s1 & Hf). rewrite Hfilter in Hf. injection Hf as <- _.
  split; [exact Htake|]. split; [|split; auto].
  rewrite Hheap. unfold deref. apply insert_extend_nil.
Qed.

(** A page taken whole, in a full crawl. *)
Lemma loop_body_full config l s items :
  raw_records (answer server config l s) = Some items ->
  (forall count, declared_total (answer server config l s) = Some count ->
                 ~ ceil_div count page_size < page_index l) ->
  exists l' s',
    loop_body fromtimestamp server config false None l s =
      Ret (if bool_decide (Z.of_nat (length items) < page_size)
           then Break else Continue, l') s' /\
    heap s' = <[all_articles s := deref s (all_articles s) ++ (parse_item <$> items)]>
                (heap s) /\
    requests s' = requests s ++ [params config (page_index l)] /\
    same_instance s s' /\
    page_index l' = if bool_decide (Z.of_nat (length items) < page_size)
                    then page_index l else page_index l + 1.
Proof.
  intros Hraw Htotal. rewrite loop_body_unfold. cbn zeta. rewrite Hraw.
  destruct (fetched_fields server config l s) as (Hh & Hr & _ & Hsame).
  set (s1 := fetched server config l s) in *.
  set (data := answer server config l s) in *.
  assert (forall l0 s2, heap s2 = heap s -> requests s2 = requests s1 ->
            same_instance s s2 -> page_index l0 = page_index l ->
            exists l' s',
              take_page fromtimestamp false None data l0 s2 =
                Ret (if bool_decide (Z.of_nat (length items) < page_size)
                     then Break else Continue, l') s' /\
              heap s' = <[all_articles s := deref s (all_articles s)
                                            ++ (parse_item <$> items)]> (heap s) /\
              requests s' = requests s ++ [params config (page_index l)] /\
              same_instance s s' /\
              page_index l' = if bool_decide (Z.of_nat (length items) < page_size)
                              then page_index l else page_index l + 1) as Htake.
  { intros l0 s2 Hh2 Hr2 Hsame2 Hl0.
    destruct (take_page_full data l0 s2) as (l' & s' & Htake).
    rewrite (parse_articles_raw _ _ Hraw), length_fmap in Htake.
    exists l', s'. split; [exact Htake|].
    apply take_page_spec in Htake
      as (added & _ & Hfull & Hheap & Hreq & _ & _ & Hsame' & _ & _ & _ & _ & Hpage).
    rewrite (Hfull eq_refl), (parse_articles_raw _ _ Hraw) in Hheap.
    unfold same_instance, deref in *. destruct Hsame2 as (? & ? & Hall & ?).
    rewrite Hall, Hh2 in Hheap. rewrite Hl0 in Hpage.
    repeat split; try congruence; try (intuition congruence).
    rewrite Hpage. destruct (bool_decide (Z.of_nat (length items) < page_size));
      reflexivity. }
  destruct (declared_total data) as [count|] eqn:Hcount.
  - rewrite bool_decide_eq_false_2 by now apply Htotal.
    apply Htake; unfold same_instance in *; simpl; tauto.
  - apply Htake; unfold same_instance in *; simpl; tauto.
Qed.

Lemma get_all_articles_unfold max_pages config incremental since_time s :
  get_all_articles fromtimestamp server max_pages config incremental since_time s =
    let config := default (current_config s) config in
    let filter_time := chosen_filter_time incremental since_time s in
    match while_loop fromtimestamp server (Z.to_nat max_pages) max_pages config
            incremental filter_time
            {| page_index := 1; total_count := 0; new_articles_count := 0 |}
            (started config incremental filter_time s) with
    | Ret l s1 => Ret (all_articles s1) (finished incremental l s1)
    | Raise e s1 => Raise e s1
    end.
Proof.
  unfold get_all_articles, chosen_filter_time.
  assert (forall k : SpiderConfig -> M state nat,
            (c <- match config with Some c => ret c | None => gets current_config end;; k c) s
            = k (default (current_config s) config) s) as ->
    by (intros; destruct config; reflexivity).
  step. step. unfold started.
  generalize (match since_time with
              | Some t => Some t
              | None => if incremental then last_crawl_time s else None
              end).
  intros ft. cbn zeta.
  assert (forall (k : M state nat) s0,
            (match ft with
             | Some t => logger INFO (MsgFilterTime t)
             | None => ret tt
             end;; k) s0
            = k match ft with
                | Some t => set_log (log s0 ++ [(INFO, MsgFilterTime t)]) s0
                | None => s0
                end) as ->
    by (intros k s0; destruct ft; reflexivity).
  unfold bind at 1.
  destruct (while_loop _ _ _ _ _ _ _ _ _) as [l s1|e s1]; [|reflexivity].
  step. step. unfold finished. destruct incremental; reflexivity.
Qed.

Lemma started_fields config incremental filter_time s :
  heap (started config incremental filter_time s) = heap s /\
  requests (started config incremental filter_time s) = requests s /\
  existing_article_ids (started config incremental filter_time s)
    = existing_article_ids s /\
  same_instance s (started config incremental filter_time s).
Proof.
  unfold started, same_instance. destruct filter_time; simpl; tauto.
Qed.

Lemma finished_fields incremental l s :
  heap (finished incremental l s) = heap s /\
  requests (finished incremental l s) = requests s /\
  existing_article_ids (finished incremental l s) = existing_article_ids s /\
  same_instance s (finished incremental l s).
Proof.
  unfold finished, same_instance. destruct incremental; simpl; tauto.
Qed.

(** What a call of [get_all_articles] that returns has done: the value is
    the reference [self.all_articles], the list behind it has grown by the
    records collected, each read from an answer to a request of this
    call. *)
Lemma get_all_articles_spec max_pages config incremental since_time s r s' :
  get_all_articles fromtimestamp server max_pages config incremental since_time s
    = Ret r s' ->
  r = all_articles s /\
  same_instance s s' /\
  existing_article_ids s ⊆ existing_article_ids s' /\
  exists collected sent,
    heap s' = <[all_articles s := deref s (all_articles s) ++ collected]> (heap s) /\
    requests s' = requests s ++ sent /\
    Forall (collected_from server (default (current_config s) config)
                           (requests s) (requests s')) collected.
Proof.
  rewrite get_all_articles_unfold. cbn zeta.
  set (cfg := default (current_config s) config).
  set (ft := chosen_filter_time incremental since_time s).
  destruct (started_fields cfg incremental ft s) as (Hh0 & Hr0 & Hi0 & Hsame0).
  destruct (while_loop _ _ _ _ _ _ _ _ _) as [l s1|e s1] eqn:Hloop; [|discriminate].
  intros [= <- <-].
  apply while_loop_spec in Hloop as (collected & sent & Hheap & Hreq & Hids & Hsame & Hfrom).
  destruct (finished_fields incremental l s1) as (Hh1 & Hr1 & Hi1 & Hsame1).
  unfold same_instance, deref in *.
  assert (all_articles (started cfg incremental ft s) = all_articles s) as Hall
    by tauto.
  rewrite Hall, Hh0 in Hheap. rewrite Hr0 in Hreq, Hfrom. rewrite Hi0 in Hids.
  split; [intuition congruence|]. split; [intuition congruence|].
  split; [now rewrite Hi1|].
  exists collected, sent. rewrite Hh1, Hr1. auto.
Qed.

Lemma while_loop_S max_pages config incremental filter_time fuel l s :
  while_loop fromtimestamp server (S fuel) max_pages config incremental filter_time l s =
    if bool_decide (page_index l ≤ max_pages) then
      (r <- loop_body fromtimestamp server config incremental filter_time l;;
       match fst r with
       | Break => ret (snd r)
       | Continue =>
           while_loop fromtimestamp server fuel max_pages config incremental filter_time
             (snd r)
       end) s
    else Ret l s.
Proof. simpl. now case_bool_decide. Qed.

(** The loop of [get_all_articles] is the [while] loop of the source. *)
Lemma get_all_articles_loop max_pages config incremental filter_time s :
  while_exec fromtimestamp server max_pages config incremental filter_time first_locals s
    (while_loop fromtimestamp server (Z.to_nat max_pages) max_pages config incremental
       filter_time first_locals s).
Proof. apply while_loop_fuel. simpl. lia. Qed.

(** How an iteration on a well-formed page within the declared total
    ends is decided by the size of the page alone. *)
Lemma loop_body_flow config incremental filter_time l s items f l' s' :
  raw_records (answer server config l s) = Some items ->
  (forall count, declared_total (answer server config l s) = Some count ->
                 ~ ceil_div count page_size < page_index l) ->
  loop_body fromtimestamp server config incremental filter_time l s = Ret (f, l') s' ->
  f = if bool_decide (Z.of_nat (length items) < page_size) then Break else Continue.
Proof.
  intros Hraw Htotal. rewrite loop_body_unfold. cbn zeta. rewrite Hraw.
  assert (forall l0 s0,
            take_page fromtimestamp incremental filter_time (answer server config l s) l0 s0
              = Ret (f, l') s' ->
            f = if bool_decide (Z.of_nat (length items) < page_size)
                then Break else Continue) as Htake.
  { intros l0 s0 H. apply take_page_spec in H
      as (added & _ & _ & _ & _ & _ & _ & _ & _ & _ & _ & -> & _).
    now rewrite (parse_articles_raw _ _ Hraw), length_fmap. }
  destruct (declared_total _) as [count|]; [|apply Htake].
  rewrite bool_decide_eq_false_2 by now apply Htotal. apply Htake.
Qed.

End Crawl.



Lemma deref_insert (s s' : state) (a : nat) (v : list article) :
  (a < length (heap s))%nat -> heap s' = <[a := v]> (heap s) ->
  deref s' a = v /\ length (heap s') = length (heap s).
Proof.
  intros Hlt H. unfold deref. rewrite H, list_lookup_insert_eq by exact Hlt.
  now rewrite length_insert.
Qed.

(** C5. An iteration that receives a well-formed page of fewer than
    [page_size] records is the last one: it never asks for the next page,
    whatever total the page declares, and the loop ends with the outcome
    of this iteration; in a full crawl the iteration returns. Scenario A:
    when the server declares 14 records and serves 12 and then 2, a crawl
    that returns has asked for pages 1 and 2 only, in every mode; a full
    crawl returns, and its accumulator has grown by the 14 records, in
    order. *)
Theorem last_page_detection fromtimestamp server (max_pages : Z) (config : SpiderConfig) :
  (forall (incremental : bool) (filter_time : option Z) (fuel : nat) (l : locals)
          (s : state) (items : list (gmap string string)),
     page_index l ≤ max_pages ->
     raw_records (answer server config l s) = Some items ->
     Z.of_nat (length items) < page_size ->
     (forall f l' s',
        loop_body fromtimestamp server config incremental filter_time l s
          = Ret (f, l') s' ->
        f = Break /\ requests s' = requests s ++ [params config (page_index l)]) /\
     while_loop fromtimestamp server (S fuel) max_pages config incremental filter_time l s
     = match loop_body fromtimestamp server config incremental filter_time l s with
       | Ret r s' => Ret (snd r) s'
       | Raise e s' => Raise e s'
       end /\
     (incremental = false -> filter_time = None ->
      (forall count, declared_total (answer server config l s) = Some count ->
                     page_index l ≤ ceil_div count page_size) ->
      exists l' s',
        loop_body fromtimestamp server config incremental filter_time l s
          = Ret (Break, l') s' /\
        heap s' = <[all_articles s := deref s (all_articles s) ++ (parse_item <$> items)]>
                    (heap s))) /\
  (forall (s : state) (items1 items2 : list (gmap string string)),
     2 ≤ max_pages ->
     (all_articles s < length (heap s))%nat ->
     server (requests s) (params config 1)
       = Json (Dict (Some {| resultList := Some items1; totalCount := Some 14 |})) ->
     length items1 = 12%nat ->
     server (requests s ++ [params config 1]) (params config 2)
       = Json (Dict (Some {| resultList := Some items2; totalCount := Some 14 |})) ->
     length items2 = 2%nat ->
     (forall incremental since_time r s',
        get_all_articles fromtimestamp server max_pages (Some config) incremental
          since_time s = Ret r s' ->
        requests s' = requests s ++ [params config 1; params config 2]) /\
     exists s',
       get_all_articles fromtimestamp server max_pages (Some config) false None s
         = Ret (all_articles s) s' /\
       requests s' = requests s ++ [params config 1; params config 2] /\
       deref s' (all_articles s')
         = deref s (all_articles s) ++ (parse_item <$> items1) ++ (parse_item <$> items2) /\
       length (deref s' (all_articles s')) = (length (deref s (all_articles s)) + 14)%nat).
Proof.
  split.
  - intros incremental filter_time fuel l s items Hle Hraw Hshort.
    assert (forall f l' s',
              loop_body fromtimestamp server config incremental filter_time l s
                = Ret (f, l') s' -> f = Break) as Hbreak
      by (intros f l' s'; eapply loop_body_short; eauto).
    split; [|split].
    + intros f l' s' H. split; [eapply Hbreak; eauto|].
      apply loop_body_spec in H. destruct H as (added & _ & _ & Hreq & _). exact Hreq.
    + apply while_loop_last; [exact Hle|].
      intros l' s' H. apply Hbreak in H. discriminate.
    + intros -> -> Htotal.
      destruct (loop_body_full fromtimestamp server config l s items Hraw)
        as (l' & s' & Hbody & Hheap & _).
      { intros count Hcount. specialize (Htotal count Hcount). lia. }
      rewrite bool_decide_eq_true_2 in Hbody by exact Hshort. eauto.
  - intros s items1 items2 Hmax Hvalid H1 Hlen1 H2 Hlen2. split.
    { intros incremental since_time r s'.
      rewrite get_all_articles_unfold. cbn zeta. simpl default.
      set (ft := chosen_filter_time incremental since_time s).
      destruct (started_fields config incremental ft s) as (_ & Hr0 & _ & _).
      set (s0 := started config incremental ft s) in *.
      destruct (Z.to_nat max_pages) as [|[|fuel]] eqn:Hfuel; try lia.
      destruct (while_loop _ _ _ _ _ _ _ _ _) as [l sB|e sB] eqn:Hloop; [|discriminate].
      intros [= <- <-].
      destruct (finished_fields incremental l sB) as (_ & -> & _ & _).
      rewrite while_loop_S, bool_decide_eq_true_2 in Hloop by (simpl; lia).
      apply bind_Ret_inv in Hloop as ([f1 l1] & sA & Hbody1 & Hloop).
      pose proof Hbody1 as Hflow1.
      apply loop_body_flow with (items := items1) in Hflow1.
      2:{ unfold answer. simpl page_index. rewrite Hr0, H1. reflexivity. }
      2:{ unfold answer. simpl page_index. rewrite Hr0, H1. simpl.
          intros count [= <-]. vm_compute. discriminate. }
      rewrite Hlen1 in Hflow1. simpl in Hflow1. subst f1. cbn [fst snd] in Hloop.
      apply loop_body_spec in Hbody1 as (_ & _ & _ & HreqA & _ & _ & _ & Hp1).
      cbn [page_index] in HreqA, Hp1. change (1 + 1) with 2 in Hp1.
      rewrite while_loop_S, bool_decide_eq_true_2 in Hloop by lia.
      apply bind_Ret_inv in Hloop as ([f2 l2] & sC & Hbody2 & Hloop).
      assert (f2 = Break) as ->.
      { eapply loop_body_short with (items := items2); [| |exact Hbody2].
        - unfold answer. rewrite Hp1, HreqA, Hr0, H2. reflexivity.
        - rewrite Hlen2. reflexivity. }
      cbn [fst snd] in Hloop. injection Hloop as <- <-.
      apply loop_body_spec in Hbody2 as (_ & _ & _ & -> & _).
      rewrite HreqA, Hr0, Hp1, <- app_assoc. reflexivity. }
    rewrite get_all_articles_unfold. cbn zeta. simpl default.
    unfold chosen_filter_time.
    destruct (started_fields config false None s) as (Hh0 & Hr0 & _ & Hsame0).
    set (s0 := started config false None s) in *.
    assert (all_articles s0 = all_articles s) as Hall0 by apply Hsame0.
    destruct (Z.to_nat max_pages) as [|[|fuel]] eqn:Hfuel; try lia.
    (* page 1 *)
    destruct (loop_body_full fromtimestamp server config
                {| page_index := 1; total_count := 0; new_articles_count := 0 |}
                s0 items1)
      as (l1 & s1 & Hbody1 & Hheap1 & Hreq1 & Hsame1 & Hp1).
    { unfold answer. simpl page_index. rewrite Hr0, H1. reflexivity. }
    { unfold answer. simpl page_index. rewrite Hr0, H1. simpl.
      intros count [= <-]. vm_compute. discriminate. }
    rewrite Hlen1 in Hbody1, Hp1. simpl in Hbody1, Hp1. cbn [page_index] in Hreq1.
    assert (page_index {| page_index := 1; total_count := 0; new_articles_count := 0 |}
            ≤ max_pages) as Hle1 by (simpl; lia).
    rewrite (while_loop_next fromtimestamp server config false None max_pages
               (S fuel) _ _ _ _ Hle1 Hbody1).
    assert (all_articles s1 = all_articles s) as Hall1
      by (destruct Hsame1 as (_ & _ & -> & _); exact Hall0).
    (* page 2 *)
    destruct (loop_body_full fromtimestamp server config l1 s1 items2)
      as (l2 & s2 & Hbody2 & Hheap2 & Hreq2 & Hsame2 & Hp2).
    { unfold answer. rewrite Hp1, Hreq1, Hr0. change (1 + 1) with 2.
      rewrite H2. reflexivity. }
    { unfold answer. rewrite Hp1, Hreq1, Hr0. change (1 + 1) with 2.
      rewrite H2. simpl. intros count [= <-]. vm_compute. discriminate. }
    rewrite Hlen2 in Hbody2. simpl in Hbody2.
    rewrite while_loop_last; [|lia|intros l' s'; rewrite Hbody2; discriminate].
    rewrite Hbody2. simpl snd.
    assert (all_articles s2 = all_articles s) as Hall2
      by (destruct Hsame2 as (_ & _ & -> & _); exact Hall1).
    destruct (finished_fields false l2 s2) as (Hh3 & Hr3 & _ & Hsame3).
    assert (all_articles (finished false l2 s2) = all_articles s) as Hall3
      by (destruct Hsame3 as (_ & _ & -> & _); exact Hall2).
    eexists. split; [rewrite Hall2; reflexivity|].
    split.
    { rewrite Hr3, Hreq2, Hreq1, Hr0, Hp1, <- app_assoc. reflexivity. }
    rewrite Hall0, Hh0 in Hheap1. unfold deref in Hheap1 at 1. rewrite Hh0 in Hheap1.
    fold (deref s (all_articles s)) in Hheap1.
    destruct (deref_insert s s1 _ _ Hvalid Hheap1) as (Hd1 & Hl1).
    rewrite Hall1 in Hheap2.
    assert (all_articles s < length (heap s1))%nat as Hvalid1 by lia.
    destruct (deref_insert s1 s2 _ _ Hvalid1 Hheap2) as (Hd2 & _).
    assert (deref (finished false l2 s2) (all_articles (finished false l2 s2))
            = deref s (all_articles s) ++ (parse_item <$> items1) ++ (parse_item <$> items2))
      as Hfinal.
    { rewrite Hall3. unfold deref at 1. rewrite Hh3. fold (deref s2 (all_articles s)).
      rewrite Hd2, Hd1, <- app_assoc. reflexivity. }
    split; [exact Hfinal|].
    rewrite Hfinal, !length_app, !length_fmap, Hlen1, Hlen2. lia.
Qed.

Lemma last_page_detection_witness :
  (exists l' s',
     loop_body fromtimestamp_posix fourteen_server original false None second_locals
       (init "data") = Ret (Break, l') s') /\
  (exists s',
     get_all_articles fromtimestamp_posix fourteen_server 100 (Some original) false None
       (init "data") = Ret 0%nat s' /\
     length (deref s' (all_articles s')) = 14%nat).
Proof.
  destruct (last_page_detection fromtimestamp_posix fourteen_server 100 original)
    as [A B].
  split.
  - destruct (A false None 0%nat second_locals (init "data") second_page)
      as (_ & _ & H).
    + simpl. lia.
    + reflexivity.
    + reflexivity.
    + destruct H as (l' & s' & H & _).
      * reflexivity.
      * reflexivity.
      * intros count [= <-]. vm_compute. discriminate.
      * eauto.
  - destruct (B (init "data") first_page second_page) as (_ & s' & H1 & _ & _ & H2).
    + lia.
    + simpl. lia.
    + reflexivity.
    + reflexivity.
    + reflexivity.
    + reflexivity.
    + exists s'. split; [exact H1|exact H2].
Defined.

(** C8. In incremental mode, an iteration past page 3 whose page is
    well formed, is not beyond the declared total, and of which the
    filter rejects every record, logs the diagnostic and changes neither
    the accumulator nor the seen set; it ends the loop only when the page
    is short, and otherwise the loop goes on with the test of its
    condition at the next page index. *)
Theorem heuristic_is_advisory fromtimestamp server (max_pages : Z)
    (config : SpiderConfig) (filter_time : option Z) (fuel : nat) (l : locals)
    (s : state) (items : list (gmap string string)) :
  raw_records (answer server config l s) = Some items ->
  (forall count, declared_total (answer server config l s) = Some count ->
                 page_index l ≤ ceil_div count page_size) ->
  Forall (rejected fromtimestamp filter_time s) (parse_item <$> items) ->
  3 < page_index l ->
  exists l' s',
    loop_body fromtimestamp server config true filter_time l s
      = Ret (if bool_decide (Z.of_nat (length items) < page_size)
             then Break else Continue, l') s' /\
    (INFO, MsgNoNewArticles) ∈ log s' /\
    heap s' = heap s /\ all_articles s' = all_articles s /\
    deref s' (all_articles s') = deref s (all_articles s) /\
    existing_article_ids s' = existing_article_ids s /\
    (page_index l ≤ max_pages -> page_size ≤ Z.of_nat (length items) ->
     page_index l' = page_index l + 1 /\
     while_loop fromtimestamp server (S fuel) max_pages config true filter_time l s
     = while_loop fromtimestamp server fuel max_pages config true filter_time l' s').
Proof.
  intros Hraw Htotal Hrej Hpage.
  pose proof (loop_body_unfold fromtimestamp server config true filter_time l s) as Hunf.
  cbn zeta in Hunf. rewrite Hraw in Hunf.
  destruct (fetched_fields server config l s) as (Hh & _ & Hi & Hsame).
  set (s1 := fetched server config l s) in *.
  set (data := answer server config l s) in *.
  rewrite <- (parse_articles_raw _ _ Hraw) in Hrej.
  assert (length (parse_articles data) = length items) as Hlen
    by (rewrite (parse_articles_raw _ _ Hraw); apply length_fmap).
  assert (exists l0 s2,
            loop_body fromtimestamp server config true filter_time l s
              = take_page fromtimestamp true filter_time data l0 s2 /\
            page_index l0 = page_index l /\ heap s2 = heap s /\
            existing_article_ids s2 = existing_article_ids s /\
            all_articles s2 = all_articles s) as (l0 & s2 & Hbody & Hl0 & Hh2 & Hi2 & Hall2).
  { assert (all_articles s1 = all_articles s) as Hall1 by apply Hsame.
    destruct (declared_total data) as [count|] eqn:Hcount.
    - rewrite bool_decide_eq_false_2 in Hunf
        by (specialize (Htotal count eq_refl); lia).
      eexists _, _. split; [exact Hunf|]. simpl. auto.
    - eexists _, _. split; [exact Hunf|]. auto. }
  destruct (take_page_nothing fromtimestamp true filter_time data l0 s s2 eq_refl Hrej Hi2)
    as (l' & s' & Htake & Hheap & Hids & Hmsg).
  rewrite Hlen in Htake. rewrite <- Hbody in Htake.
  exists l', s'. split; [exact Htake|].
  pose proof Htake as Hspec. apply loop_body_spec in Hspec
    as (_ & _ & _ & _ & _ & _ & Hsame' & Hp).
  assert (all_articles s' = all_articles s) as Hall' by apply Hsame'.
  split; [apply Hmsg; [reflexivity|now rewrite Hl0]|].
  split; [congruence|]. split; [exact Hall'|].
  split; [unfold deref; rewrite Hall'; congruence|].
  split; [congruence|].
  intros Hle Hfull. rewrite bool_decide_eq_false_2 in Htake, Hp by lia.
  split; [exact Hp|]. now apply while_loop_next.
Qed.

Lemma heuristic_is_advisory_witness :
  exists l' s',
    loop_body fromtimestamp_posix repeating_server original true None fourth_locals
      caught_up = Ret (Continue, l') s' /\
    (INFO, MsgNoNewArticles) ∈ log s' /\
    page_index l' = 5.
Proof.
  destruct (heuristic_is_advisory fromtimestamp_posix repeating_server 100 original None
              0%nat fourth_locals caught_up first_page)
    as (l' & s' & H1 & H2 & _ & _ & _ & _ & H3).
  - reflexivity.
  - intros count H. vm_compute in H. discriminate.
  - repeat constructor; left; vm_compute; reflexivity.
  - simpl. lia.
  - exists l', s'. split; [exact H1|]. split; [exact H2|].
    apply H3; [simpl; lia|vm_compute; discriminate].
Defined.

(** ** Batches *)

Lemma dict_get_set {V} (d : list (string * V)) (key key' : string) (v : V) :
  dict_get (dict_set d key v) key' =
    if bool_decide (key = key') then Some v else dict_get d key'.
Proof.
  induction d as [|[k w] r IH]; simpl.
  - reflexivity.
  - destruct (bool_decide (k = key)) eqn:Ek; simpl.
    + apply bool_decide_eq_true_1 in Ek. subst k.
      destruct (bool_decide (key = key')); reflexivity.
    + rewrite IH. apply bool_decide_eq_false_1 in Ek.
      case_bool_decide as E1; case_bool_decide as E2; try reflexivity. congruence.
Qed.

Section Batch.

Variable fromtimestamp : number -> fromtimestamp_result.
Variable server : list request -> request -> response.


End Batch.



(** A full crawl always returns. *)
Lemma loop_body_returns fromtimestamp server config l s :
  exists f l' s', loop_body fromtimestamp server config false None l s = Ret (f, l') s'.
Proof.
  rewrite loop_body_unfold. cbn zeta.
  destruct (raw_records _); [|eauto].
  destruct (declared_total _); [case_bool_decide; [eauto|]|];
    edestruct take_page_full as (l' & s' & ->); eauto.
Qed.

Lemma while_loop_returns fromtimestamp server max_pages config fuel :
  forall l s, exists l' s',
    while_loop fromtimestamp server fuel max_pages config false None l s = Ret l' s'.
Proof.
  induction fuel as [|fuel IH]; intros l s; simpl; case_bool_decide; eauto.
  destruct (loop_body_returns fromtimestamp server config l s) as (f & l' & s' & Hb).
  rewrite (bind_Ret _ _ _ _ _ Hb). destruct f; simpl; eauto.
Qed.

Lemma get_all_articles_returns fromtimestamp server max_pages config s :
  get_all_articles fromtimestamp server max_pages config false None s =
    Ret (all_articles s)
        (state_of (get_all_articles fromtimestamp server max_pages config false None s)).
Proof.
  destruct (get_all_articles fromtimestamp server max_pages config false None s)
    as [r s'|e s'] eqn:H.
  - apply get_all_articles_spec in H as (-> & _). reflexivity.
  - rewrite get_all_articles_unfold in H. cbn zeta in H.
    edestruct while_loop_returns as (l' & s1 & Hloop). rewrite Hloop in H. discriminate.
Qed.


(** ** The history store *)

(** C9, as amended. [save_crawl_history] always returns normally, in
    [spider.py] and in [main.py]: either the history file is written, or
    the failure of the write is caught, logged as an error and not
    raised. *)
Theorem history_save_returns disk (now : Z) (s : state) :
  (exists s', save_crawl_history disk now s = Ret tt s' /\ saved_or_logged now s s') /\
  (exists s', main_save_crawl_history disk now s = Ret tt s' /\ saved_or_logged now s s').
Proof.
  unfold saved_or_logged, history_of, crawl_history_file. split.
  - unfold save_crawl_history, save_json, ensure_dir, makedirs, write_json, try_except,
      bind, gets, logger, modify, ret, raise, crawl_history_file. simpl.
    case_bool_decide as Hdir.
    + destruct (disk s (WriteFile _ _)); simpl; eexists; (split; [reflexivity|]); simpl.
      * left. rewrite lookup_insert_eq, last_snoc. auto.
      * right. apply last_snoc.
      * right. apply last_snoc.
    + destruct (disk s (Makedirs _)); simpl;
        try (eexists; split; [reflexivity|]; right; apply last_snoc).
      destruct (disk _ (WriteFile _ _)); simpl; eexists; (split; [reflexivity|]); simpl.
      * left. rewrite lookup_insert_eq, last_snoc. auto.
      * right. apply last_snoc.
      * right. apply last_snoc.
  - unfold main_save_crawl_history, write_json, try_except,
      bind, gets, logger, modify, ret, raise, crawl_history_file. simpl.
    destruct (disk s (WriteFile _ _)); simpl; eexists; (split; [reflexivity|]); simpl.
    + left. rewrite lookup_insert_eq, last_snoc. auto.
    + right. apply last_snoc.
    + right. apply last_snoc.
Qed.

(** C9 as stated fails: on a disk that refuses the write, the save
    returns normally and the history file does not exist. *)
Lemma history_save_swallows_failure :
  save_crawl_history read_only_disk 0 (init "data")
    = Ret tt (set_log [(ERROR, MsgJsonFailed "data" "crawl_history.json");
                       (ERROR, MsgHistoryFailed)] (init "data")) /\
  main_save_crawl_history read_only_disk 0 (init "data")
    = Ret tt (set_log [(ERROR, MsgHistoryFailed)] (init "data")) /\
  files (init "data") !! crawl_history_file (init "data") = None /\
  ~ (forall disk now s,
       match save_crawl_history disk now s with
       | Ret _ s' => files s' !! crawl_history_file s = Some (Complete (history_of now s))
       | Raise _ _ => True
       end).
Proof.
  assert (files (init "data") !! crawl_history_file (init "data") = None) as Hnone
    by apply lookup_empty.
  assert (save_crawl_history read_only_disk 0 (init "data")
          = Ret tt (set_log [(ERROR, MsgJsonFailed "data" "crawl_history.json");
                             (ERROR, MsgHistoryFailed)] (init "data"))) as Hsave.
  { unfold save_crawl_history, save_json, ensure_dir, makedirs, write_json, try_except,
      bind, gets, logger, modify, ret, raise, crawl_history_file. simpl.
    rewrite bool_decide_eq_true_2 by (apply elem_of_singleton_2; reflexivity).
    reflexivity. }
  split; [exact Hsave|]. split; [reflexivity|]. split; [exact Hnone|].
  intros H. specialize (H read_only_disk 0 (init "data")).
  rewrite Hsave in H.
  change (files (init "data") !! crawl_history_file (init "data")
          = Some (Complete (history_of 0 (init "data")))) in H.
  rewrite Hnone in H. discriminate.
Qed.

(** * More on the filter *)

Section FilterMore.

Variable fromtimestamp : number -> fromtimestamp_result.

Lemma filter_article_cases since a s :
  (filter_article fromtimestamp since a s = Ret Duplicate s /\
   get a "id" ≠ "" /\ get a "id" ∈ existing_article_ids s) \/
  (~ (get a "id" ≠ "" /\ get a "id" ∈ existing_article_ids s) /\
   ((filter_article fromtimestamp since a s = Ret Accepted (seen (get a "id") s) /\
     _is_article_newer fromtimestamp a since s = Ret true s) \/
    (filter_article fromtimestamp since a s = Ret TooOld s /\
     _is_article_newer fromtimestamp a since s = Ret false s) \/
    (exists e, filter_article fromtimestamp since a s = Raise e s /\
               _is_article_newer fromtimestamp a since s = Raise e s))).
Proof.
  destruct (decide (get a "id" ≠ "" /\ get a "id" ∈ existing_article_ids s)) as [[H1 H2]|Hn].
  - left. split; [now apply filter_article_duplicate|auto].
  - right. split; [exact Hn|].
    assert (get a "id" = "" \/ get a "id" ∉ existing_article_ids s) as Hid.
    { destruct (decide (get a "id" = "")); [now left|right]. intros Hin. apply Hn. auto. }
    destruct (_is_article_newer fromtimestamp a since s) as [b s1|e s1] eqn:En;
      pose proof (_is_article_newer_pure _ _ _ _ _ En) as Hs; simpl in Hs; subst s1.
    + rewrite (filter_article_fresh fromtimestamp since a s b Hid En).
      destruct b; auto.
    + right. right. exists e. split; [|reflexivity].
      unfold filter_article, bind, gets.
      replace (truthy (get a "id") && bool_decide (get a "id" ∈ existing_article_ids s))
        with false.
      * now rewrite En.
      * symmetry. apply andb_false_iff. unfold truthy. destruct Hid as [->|H].
        -- now left.
        -- right. now apply bool_decide_eq_false_2.
Qed.

Lemma identifiers_app (l1 l2 : list article) :
  identifiers (l1 ++ l2) = identifiers l1 ++ identifiers l2.
Proof. unfold identifiers. now rewrite fmap_app, List.filter_app. Qed.

Lemma identifiers_cons (a : article) (l : list article) :
  identifiers (a :: l) = if truthy (get a "id") then get a "id" :: identifiers l
                         else identifiers l.
Proof. reflexivity. Qed.

Lemma elem_of_identifiers (i : string) (l : list article) :
  i ∈ identifiers l <-> i ≠ "" /\ exists a, a ∈ l /\ get a "id" = i.
Proof.
  unfold identifiers. rewrite list_elem_of_In, List.filter_In, <- list_elem_of_In.
  rewrite list_elem_of_fmap. unfold truthy. rewrite bool_decide_eq_true. split.
  - intros [(a & -> & Ha) Hne]. eauto.
  - intros [Hne (a & Ha & <-)]. eauto.
Qed.

Lemma existing_ids_identifiers (l : list article) :
  existing_ids l = list_to_set (identifiers l).
Proof. reflexivity. Qed.

Lemma seen_ids_exact (a : article) (s : state) :
  existing_article_ids (seen (get a "id") s)
  = existing_article_ids s ∪ list_to_set (identifiers [a]).
Proof.
  unfold seen. rewrite identifiers_cons. destruct (truthy (get a "id")); simpl; set_solver.
Qed.

(** The loop of the filter, in full: what is accepted, what is counted,
    and the seen set it leaves. *)
Lemma filter_loop_exact since articles :
  forall new_articles dups olds s new_articles' dups' olds' s',
  filter_loop fromtimestamp since articles new_articles dups olds s
    = Ret (new_articles', dups', olds') s' ->
  exists accepted d o,
    new_articles' = new_articles ++ accepted /\
    dups' = (dups + d)%nat /\ olds' = (olds + o)%nat /\
    (length accepted + d + o = length articles)%nat /\
    sublist accepted articles /\
    existing_article_ids s'
      = existing_article_ids s ∪ list_to_set (identifiers accepted) /\
    NoDup (identifiers accepted) /\
    (forall i, i ∈ identifiers accepted -> i ∉ existing_article_ids s) /\
    Forall (fun a => forall s0, _is_article_newer fromtimestamp a since s0 = Ret true s0)
           accepted /\
    (since = None -> o = 0%nat).
Proof.
  induction articles as [|a rest IH]; intros new dups olds s new' dups' olds' s' H.
  - injection H as <- <- <- <-. exists [], 0%nat, 0%nat.
    rewrite app_nil_r, !Nat.add_0_r. repeat split; auto; try constructor.
    + set_solver.
    + intros i Hi. inversion Hi.
  - simpl in H. apply bind_Ret_inv in H as (d & s1 & Hd & H).
    destruct (filter_article_cases since a s)
      as [(Hdup & Hne & Hin)|(Hfresh & [(Hacc & Hnew)|[(Hold & Hnew)|(e & Hr & _)]])];
      [rewrite Hdup in Hd|rewrite Hacc in Hd|rewrite Hold in Hd|rewrite Hr in Hd];
      try discriminate; injection Hd as <- <-.
    + apply IH in H as (acc & d & o & -> & -> & -> & Hlen & Hsub & Hids & Hnd & Hfr & Hall & Ho).
      exists acc, (S d), o. simpl. repeat split; auto; try lia. now constructor.
    + apply IH in H as (acc & d & o & -> & -> & -> & Hlen & Hsub & Hids & Hnd & Hfr & Hall & Ho).
      exists (a :: acc), d, o. rewrite <- app_assoc. simpl.
      rewrite seen_ids_exact in Hids.
      assert (forall i, i ∈ identifiers acc ->
                        ((i ∉ existing_article_ids s) /\ (i ≠ get a "id")) \/
                        ((i ∉ existing_article_ids s) /\ (get a "id" = "")))
        as Hfr'.
      { intros i Hi. specialize (Hfr i Hi). rewrite seen_ids_exact, identifiers_cons in Hfr.
        destruct (truthy (get a "id")) eqn:Et.
        - left. set_solver.
        - right. split; [set_solver|]. unfold truthy in Et.
          apply bool_decide_eq_false_1 in Et. now apply dec_stable. }
      split; [reflexivity|]. split; [reflexivity|]. split; [reflexivity|].
      split; [lia|]. split; [now constructor|].
      split.
      { rewrite Hids. change (a :: acc) with ([a] ++ acc).
        rewrite identifiers_app, list_to_set_app_L. set_solver. }
      split.
      { rewrite identifiers_cons. destruct (truthy (get a "id")) eqn:Et; [|exact Hnd].
        constructor; [|exact Hnd]. intros Hi. destruct (Hfr' _ Hi) as [[_ Hx]|[_ Hx]].
        - now apply Hx.
        - unfold truthy in Et. apply bool_decide_eq_true_1 in Et. contradiction. }
      split.
      { intros i. rewrite identifiers_cons.
        destruct (truthy (get a "id")) eqn:Et.
        - intros [->|Hi]%elem_of_cons.
          + intros Hin. apply Hfresh. split; [|exact Hin].
            unfold truthy in Et. now apply bool_decide_eq_true_1 in Et.
          + destruct (Hfr' _ Hi) as [[Hx _]|[Hx _]]; exact Hx.
        - intros Hi. destruct (Hfr' _ Hi) as [[Hx _]|[Hx _]]; exact Hx. }
      split; [|exact Ho].
      constructor; [|exact Hall]. intros s0.
      rewrite (_is_article_newer_indep fromtimestamp a since s s0), Hnew. reflexivity.
    + apply IH in H as (acc & d & o & -> & -> & -> & Hlen & Hsub & Hids & Hnd & Hfr & Hall & Ho).
      exists acc, d, (S o). simpl. repeat split; auto; try lia; try now constructor.
      intros ->. simpl in Hnew. discriminate.
Qed.

End FilterMore.

Lemma filter_log_counts dups olds s :
  log (filter_log dups olds s) = log s ++ counts_logged dups olds.
Proof.
  unfold filter_log, counts_logged. do 2 case_bool_decide; simpl;
    rewrite ?app_nil_r, <- ?app_assoc; reflexivity.
Qed.

(** What a call of [filter_new_articles] that returns has done, in one
    statement. *)
Lemma filter_new_articles_exact fromtimestamp articles since s new_articles s' :
  filter_new_articles fromtimestamp articles since s = Ret new_articles s' ->
  exists dups olds,
    (length new_articles + dups + olds = length articles)%nat /\
    sublist new_articles articles /\
    s' = set_log (log s ++ counts_logged dups olds)
           (set_existing_article_ids
              (existing_article_ids s ∪ list_to_set (identifiers new_articles)) s) /\
    NoDup (identifiers new_articles) /\
    (forall i, i ∈ identifiers new_articles -> i ∉ existing_article_ids s) /\
    Forall (fun a => forall s0, _is_article_newer fromtimestamp a since s0 = Ret true s0)
           new_articles /\
    (since = None -> olds = 0%nat).
Proof.
  intros H. apply filter_new_articles_spec in H as (dups & olds & s1 & Hloop & ->).
  pose proof Hloop as Hframe.
  apply filter_loop_spec in Hframe as (_ & _ & _ & _ & Hframe & _).
  apply filter_loop_exact in Hloop
    as (acc & d & o & Hacc & -> & -> & Hlen & Hsub & Hids & Hnd & Hfr & Hall & Ho).
  simpl in Hacc. subst acc. exists d, o. simpl.
  repeat split; auto.
  rewrite Hframe, Hids. unfold filter_log, counts_logged.
  do 2 case_bool_decide; simpl; rewrite ?app_nil_r, <- ?app_assoc; reflexivity.
Qed.

(** X1. The list that [filter_new_articles] returns is a sublist of the
    page, in the order of the page; every record of the page is returned,
    counted as a duplicate or counted as too old, and the two counts are
    what is logged. *)
Theorem filter_partitions_the_page fromtimestamp (articles : list article)
    (since : option Z) (s : state) (new_articles : list article) (s' : state) :
  filter_new_articles fromtimestamp articles since s = Ret new_articles s' ->
  sublist new_articles articles /\
  exists duplicate_count time_filtered_count,
    (length new_articles + duplicate_count + time_filtered_count = length articles)%nat /\
    log s' = log s ++ counts_logged duplicate_count time_filtered_count.
Proof.
  intros H. apply filter_new_articles_exact in H
    as (dups & olds & Hlen & Hsub & -> & _).
  split; [exact Hsub|]. exists dups, olds. split; [exact Hlen|reflexivity].
Qed.

(** X2. After [filter_new_articles] the seen set is the seen set before
    together with the non-empty identifiers of the records returned, no
    more and no less; nothing else of the state changes but the log. *)
Theorem filter_seen_set fromtimestamp (articles : list article) (since : option Z)
    (s : state) (new_articles : list article) (s' : state) :
  filter_new_articles fromtimestamp articles since s = Ret new_articles s' ->
  existing_article_ids s' = existing_article_ids s ∪ existing_ids new_articles /\
  heap s' = heap s /\ requests s' = requests s /\ same_instance s s'.
Proof.
  intros H. apply filter_new_articles_exact in H
    as (dups & olds & _ & _ & -> & _).
  unfold same_instance. simpl. repeat split; reflexivity.
Qed.

(** X3. No two records that [filter_new_articles] returns share a
    non-empty identifier, and no returned identifier was in the seen set
    before the call: duplicates inside one page are dropped too. *)
Theorem filter_returns_new_identifiers fromtimestamp (articles : list article)
    (since : option Z) (s : state) (new_articles : list article) (s' : state) :
  filter_new_articles fromtimestamp articles since s = Ret new_articles s' ->
  NoDup (identifiers new_articles) /\
  (forall a, a ∈ new_articles -> get a "id" ≠ "" ->
             get a "id" ∉ existing_article_ids s).
Proof.
  intros H. apply filter_new_articles_exact in H
    as (dups & olds & _ & _ & _ & Hnd & Hfr & _).
  split; [exact Hnd|]. intros a Ha Hne. apply Hfr.
  apply elem_of_identifiers. eauto.
Qed.

Lemma twice_seven_filtered :
  filter_new_articles fromtimestamp_posix twice_seven None (init "data")
  = Ret [record "7" "" ""] seven_filtered.
Proof. reflexivity. Qed.

Lemma filter_partitions_the_page_witness :
  sublist [record "7" "" ""] twice_seven /\
  exists duplicate_count time_filtered_count,
    (length [record "7" "" ""] + duplicate_count + time_filtered_count
     = length twice_seven)%nat /\
    log seven_filtered = log (init "data") ++ counts_logged duplicate_count time_filtered_count.
Proof.
  exact (filter_partitions_the_page fromtimestamp_posix twice_seven None (init "data")
           [record "7" "" ""] seven_filtered twice_seven_filtered).
Defined.

Lemma filter_seen_set_witness :
  existing_article_ids seven_filtered
  = existing_article_ids (init "data") ∪ existing_ids [record "7" "" ""].
Proof.
  exact (proj1 (filter_seen_set fromtimestamp_posix twice_seven None (init "data")
                  [record "7" "" ""] seven_filtered twice_seven_filtered)).
Defined.

Lemma filter_returns_new_identifiers_witness :
  NoDup (identifiers [record "7" "" ""]).
Proof.
  exact (proj1 (filter_returns_new_identifiers fromtimestamp_posix twice_seven None
                  (init "data") [record "7" "" ""] seven_filtered twice_seven_filtered)).
Defined.

Section FilterAgain.

Variable fromtimestamp : number -> fromtimestamp_result.

Lemma filter_loop_again since accepted :
  forall new_articles dups olds s,
  Forall (fun a => forall s0, _is_article_newer fromtimestamp a since s0 = Ret true s0)
         accepted ->
  (forall i, i ∈ identifiers accepted -> i ∈ existing_article_ids s) ->
  filter_loop fromtimestamp since accepted new_articles dups olds s
  = Ret (new_articles ++ anonymous accepted,
         (dups + length (identifiers accepted))%nat, olds) s.
Proof.
  induction accepted as [|a rest IH]; intros new dups olds s Hall Hin.
  - simpl. now rewrite app_nil_r, Nat.add_0_r.
  - inversion Hall as [|? ? Ha Hrest]; subst. simpl filter_loop.
    unfold anonymous. simpl List.filter. fold (anonymous rest).
    rewrite identifiers_cons in *. destruct (truthy (get a "id")) eqn:Et; simpl negb.
    + rewrite (bind_Ret _ _ _ _ _
                 (filter_article_duplicate fromtimestamp since a s
                    ltac:(unfold truthy in Et; now apply bool_decide_eq_true_1 in Et)
                    ltac:(apply Hin; now left))).
      rewrite IH; [|exact Hrest|intros i Hi; apply Hin; now right].
      simpl. do 3 f_equal. lia.
    + rewrite (bind_Ret _ _ _ _ _
                 (filter_article_fresh fromtimestamp since a s true
                    ltac:(left; unfold truthy in Et; apply bool_decide_eq_false_1 in Et;
                          now apply dec_stable)
                    (Ha s))).
      unfold seen. rewrite Et.
      rewrite IH; [|exact Hrest|exact Hin].
      now rewrite <- app_assoc.
Qed.

End FilterAgain.

(** X4. Filtering again the list that [filter_new_articles] has returned,
    in the state it has left, returns the records with an empty
    identifier and nothing else, and leaves the seen set as it is: every
    identified record is now a duplicate, and a record without identifier
    is accepted each time it is met. *)
Theorem filter_second_pass fromtimestamp (articles : list article) (since : option Z)
    (s : state) (new_articles : list article) (s' : state) :
  filter_new_articles fromtimestamp articles since s = Ret new_articles s' ->
  exists s'',
    filter_new_articles fromtimestamp new_articles since s'
      = Ret (anonymous new_articles) s'' /\
    existing_article_ids s'' = existing_article_ids s'.
Proof.
  intros H. apply filter_new_articles_exact in H
    as (dups & olds & _ & _ & -> & _ & _ & Hall & _).
  set (s1 := set_log _ _).
  assert (forall i, i ∈ identifiers new_articles -> i ∈ existing_article_ids s1) as Hin.
  { intros i Hi.
    change (i ∈ existing_article_ids s ∪ list_to_set (identifiers new_articles)).
    apply elem_of_union_r. now apply elem_of_list_to_set. }
  unfold filter_new_articles.
  rewrite (bind_Ret _ _ _ _ _
             (filter_loop_again fromtimestamp since new_articles [] 0%nat 0%nat s1
                Hall Hin)).
  cbn beta iota. do 2 step. eexists. split; [reflexivity|].
  do 2 case_bool_decide; reflexivity.
Qed.

Lemma filter_second_pass_witness :
  exists s'',
    filter_new_articles fromtimestamp_posix [record "7" "" ""] None seven_filtered
      = Ret [] s'' /\
    existing_article_ids s'' = existing_article_ids seven_filtered.
Proof.
  exact (filter_second_pass fromtimestamp_posix twice_seven None (init "data")
           [record "7" "" ""] seven_filtered twice_seven_filtered).
Defined.

Lemma bind_Raise_inv {St A B} (c : M St A) (k : A -> M St B) s e s2 :
  bind c k s = Raise e s2 ->
  c s = Raise e s2 \/ exists a s1, c s = Ret a s1 /\ k a s1 = Raise e s2.
Proof.
  unfold bind. destruct (c s) as [a s1|e1 s1]; [eauto|]. intros [= <- <-]. now left.
Qed.

Section FilterEdges.

Variable fromtimestamp : number -> fromtimestamp_result.

Lemma _parse_timestamp_escapes str s e s' :
  _parse_timestamp fromtimestamp str s = Raise e s' -> escapes fromtimestamp e.
Proof.
  unfold _parse_timestamp, try_except, raise, ret.
  destruct (truthy str); simpl; [|discriminate].
  destruct (py_int str) as [n|]; simpl; [|discriminate].
  destruct (fromtimestamp _) as [t|[]] eqn:E; simpl; try discriminate;
    intros [= <- <-]; repeat split; try discriminate; eauto.
Qed.

Lemma _is_article_newer_escapes a since s e s' :
  _is_article_newer fromtimestamp a since s = Raise e s' ->
  since ≠ None /\ escapes fromtimestamp e.
Proof.
  destruct since as [since|]; [|discriminate]. intros H. split; [discriminate|].
  unfold _is_article_newer in H.
  apply bind_Raise_inv in H as [H|(t & s1 & _ & H)].
  - unfold article_time in H. apply bind_Raise_inv in H as [H|(p & s1 & _ & H)].
    + eapply _parse_timestamp_escapes; eauto.
    + apply bind_Raise_inv in H as [H|(u & s2 & _ & H)]; [|discriminate].
      eapply _parse_timestamp_escapes; eauto.
  - destruct t; discriminate.
Qed.

Lemma filter_loop_escapes since articles :
  forall new_articles dups olds s e s',
  filter_loop fromtimestamp since articles new_articles dups olds s = Raise e s' ->
  since ≠ None /\ escapes fromtimestamp e.
Proof.
  induction articles as [|a rest IH]; intros new dups olds s e s' H; [discriminate|].
  simpl in H. apply bind_Raise_inv in H as [H|(d & s1 & _ & H)].
  - destruct (filter_article_cases fromtimestamp since a s)
      as [(Hd & _)|(_ & [(Hd & _)|[(Hd & _)|(e0 & Hd & Hn)]])];
      rewrite Hd in H; try discriminate.
    injection H as <- <-. eapply _is_article_newer_escapes; eauto.
  - destruct d; eapply IH; eauto.
Qed.

Lemma filter_loop_returns articles :
  forall new_articles dups olds s,
  exists r s', filter_loop fromtimestamp None articles new_articles dups olds s = Ret r s'.
Proof.
  induction articles as [|a rest IH]; intros new dups olds s; simpl; [eauto|].
  destruct (filter_article_cases fromtimestamp None a s)
    as [(Hd & _)|(_ & [(Hd & _)|[(_ & Hn)|(e0 & _ & Hn)]])];
    try discriminate; rewrite (bind_Ret _ _ _ _ _ Hd); apply IH.
Qed.

Lemma filter_loop_all_new articles :
  forall new_articles dups olds s,
  NoDup (identifiers articles) ->
  (forall i, i ∈ identifiers articles -> i ∉ existing_article_ids s) ->
  exists s', filter_loop fromtimestamp None articles new_articles dups olds s
             = Ret (new_articles ++ articles, dups, olds) s'.
Proof.
  induction articles as [|a rest IH]; intros new dups olds s Hnd Hnew; simpl.
  - rewrite app_nil_r. eauto.
  - rewrite identifiers_cons in Hnd, Hnew.
    assert (get a "id" = "" \/ get a "id" ∉ existing_article_ids s) as Hid.
    { destruct (truthy (get a "id")) eqn:Et.
      - right. apply Hnew. now left.
      - left. unfold truthy in Et. apply bool_decide_eq_false_1 in Et.
        now apply dec_stable. }
    rewrite (bind_Ret _ _ _ _ _
               (filter_article_fresh fromtimestamp None a s true Hid eq_refl)).
    destruct (IH (new ++ [a]) dups olds (seen (get a "id") s)) as (s' & ->).
    + destruct (truthy (get a "id")); [now inversion Hnd|exact Hnd].
    + intros i Hi. unfold seen. destruct (truthy (get a "id")) eqn:Et.
      * simpl. inversion Hnd as [|? ? Hni Hnd']; subst.
        intros [->%elem_of_singleton|Hin]%elem_of_union; [contradiction|].
        revert Hin. apply Hnew. now right.
      * now apply Hnew.
    + rewrite <- app_assoc. eauto.
Qed.

End FilterEdges.

(** X5. Without a threshold [filter_new_articles] always returns: it
    reads no timestamp, rejects duplicates only, and logs no record as
    old. A page whose non-empty identifiers are pairwise distinct and not
    yet seen is returned whole. *)
Theorem filter_without_threshold fromtimestamp (articles : list article) (s : state) :
  exists new_articles duplicate_count s',
    filter_new_articles fromtimestamp articles None s = Ret new_articles s' /\
    (length new_articles + duplicate_count = length articles)%nat /\
    log s' = log s ++ counts_logged duplicate_count 0 /\
    (NoDup (identifiers articles) ->
     (forall i, i ∈ identifiers articles -> i ∉ existing_article_ids s) ->
     new_articles = articles).
Proof.
  destruct (filter_loop_returns fromtimestamp articles [] 0%nat 0%nat s)
    as ([[new dups] olds] & s1 & Hloop).
  assert (exists s', filter_new_articles fromtimestamp articles None s = Ret new s')
    as (s' & Hf).
  { unfold filter_new_articles. rewrite (bind_Ret _ _ _ _ _ Hloop). cbn beta iota.
    do 2 step. eauto. }
  exists new. pose proof Hf as Hex. apply filter_new_articles_exact in Hex
    as (d & o & Hlen & _ & -> & _ & _ & _ & Ho).
  rewrite (Ho eq_refl) in *. exists d. eexists. split; [exact Hf|].
  split; [lia|]. split; [reflexivity|].
  intros Hnd Hnew.
  destruct (filter_loop_all_new fromtimestamp articles [] 0%nat 0%nat s Hnd Hnew)
    as (s2 & Hall).
  rewrite Hall in Hloop. now injection Hloop as <- _ _ _.
Qed.

Lemma filter_without_threshold_witness :
  exists new_articles (duplicate_count : nat) s',
    filter_new_articles fromtimestamp_posix [record "7" "x" ""; record "8" "" "y"] None
      (init "data") = Ret new_articles s' /\
    new_articles = [record "7" "x" ""; record "8" "" "y"].
Proof.
  destruct (filter_without_threshold fromtimestamp_posix
              [record "7" "x" ""; record "8" "" "y"] (init "data"))
    as (new & d & s' & H1 & _ & _ & H2).
  exists new, d, s'. split; [exact H1|]. apply H2.
  - vm_compute. repeat constructor; set_solver.
  - intros i Hi. apply not_elem_of_empty.
Defined.



(** ** The requests of a crawl *)

Lemma page_requests_S config first count :
  page_requests config first (S count)
  = params config first :: page_requests config (first + 1) count.
Proof.
  unfold page_requests. simpl. rewrite Z.add_0_r. f_equal.
  rewrite <- fmap_S_seq, <- list_fmap_compose. apply list_fmap_ext.
  intros i x _. simpl. f_equal. lia.
Qed.

Section Requests.

Variable fromtimestamp : number -> fromtimestamp_result.
Variable server : list request -> request -> response.

Lemma while_loop_requests config incremental filter_time max_pages fuel :
  forall l s l' s',
  while_loop fromtimestamp server fuel max_pages config incremental filter_time l s
    = Ret l' s' ->
  exists k : nat,
    requests s' = requests s ++ page_requests config (page_index l) k /\
    Z.of_nat k ≤ Z.max 0 (max_pages + 1 - page_index l).
Proof.
  induction fuel as [|fuel IH]; intros l s l' s' H.
  - exists 0%nat. assert (s' = s) as ->.
    { simpl in H. case_bool_decide; now injection H. }
    rewrite app_nil_r. split; [reflexivity|lia].
  - rewrite while_loop_S in H. case_bool_decide as Hp.
    + apply bind_Ret_inv in H as ([f l1] & s1 & Hb & H). cbn [fst snd] in H.
      destruct (loop_body_spec fromtimestamp server _ _ _ _ _ _ _ _ Hb)
        as (added & _ & _ & Hreq & _ & _ & _ & Hpage).
      destruct f.
      * injection H as <- <-. exists 1%nat. rewrite Hreq. split; [|lia].
        unfold page_requests. simpl. now rewrite Z.add_0_r.
      * apply IH in H as (k & Hk & Hle). exists (S k).
        rewrite Hk, Hreq, <- app_assoc, page_requests_S, Hpage. split; [reflexivity|lia].
    + injection H as <- <-. exists 0%nat. rewrite app_nil_r. split; [reflexivity|lia].
Qed.






End Requests.

(** X7. A crawl that returns has asked for pages 1, 2, ..., k of its
    configuration and for nothing else, in this order, with the fixed page
    size; k is at most [max_pages], and no request is made when
    [max_pages] is not positive. *)
Theorem crawl_asks_pages_in_order fromtimestamp server (max_pages : Z)
    (config : option SpiderConfig) (incremental : bool) (since_time : option Z)
    (s : state) (r : nat) (s' : state) :
  get_all_articles fromtimestamp server max_pages config incremental since_time s
    = Ret r s' ->
  exists k : nat,
    requests s' = requests s ++ page_requests (default (current_config s) config) 1 k /\
    Z.of_nat k ≤ Z.max 0 max_pages.
Proof.
  rewrite get_all_articles_unfold. cbn zeta.
  destruct (while_loop _ _ _ _ _ _ _ _ _) as [l s1|] eqn:Hloop; [|discriminate].
  intros [= _ <-].
  apply while_loop_requests in Hloop as (k & Hk & Hle). exists k.
  destruct (finished_fields incremental l s1) as (_ & -> & _).
  destruct (started_fields (default (current_config s) config) incremental
              (chosen_filter_time incremental since_time s) s) as (_ & Hs & _).
  rewrite Hk, Hs. split; [reflexivity|]. simpl in Hle. lia.
Qed.

Lemma crawl_asks_pages_in_order_witness :
  exists k : nat,
    requests (state_of (get_all_articles fromtimestamp_posix fourteen_server 5 None
                          false None (init "data")))
    = requests (init "data") ++ page_requests original 1 k /\
    Z.of_nat k ≤ Z.max 0 5.
Proof.
  exact (crawl_asks_pages_in_order fromtimestamp_posix fourteen_server 5 None false None
           (init "data") _ _
           (get_all_articles_returns fromtimestamp_posix fourteen_server 5 None
              (init "data"))).
Defined.



(** X9. A page beyond the declared total is discarded with its records:
    when [totalCount] gives fewer pages than the index of the page just
    fetched, the iteration ends the loop, and the list objects and the
    seen set are as before, whatever [resultList] holds. *)
Theorem page_beyond_total_is_discarded fromtimestamp server (max_pages : Z)
    (config : SpiderConfig) (incremental : bool) (filter_time : option Z) (fuel : nat)
    (l : locals) (s : state) (items : list (gmap string string)) (count : Z) :
  raw_records (answer server config l s) = Some items ->
  declared_total (answer server config l s) = Some count ->
  ceil_div count page_size < page_index l ->
  exists s',
    loop_body fromtimestamp server config incremental filter_time l s
      = Ret (Break, with_total count l) s' /\
    heap s' = heap s /\ existing_article_ids s' = existing_article_ids s /\
    requests s' = requests s ++ [params config (page_index l)] /\
    (page_index l ≤ max_pages ->
     while_loop fromtimestamp server (S fuel) max_pages config incremental filter_time l s
     = Ret (with_total count l) s').
Proof.
  intros Hraw Htotal Hlt.
  pose proof (loop_body_unfold fromtimestamp server config incremental filter_time l s)
    as Hunf.
  cbn zeta in Hunf. rewrite Hraw, Htotal in Hunf.
  rewrite bool_decide_eq_true_2 in Hunf by exact Hlt.
  destruct (fetched_fields server config l s) as (Hh & Hr & Hi & _).
  eexists. split; [exact Hunf|]. split; [exact Hh|]. split; [exact Hi|].
  split; [exact Hr|]. intros Hle.
  rewrite while_loop_S, bool_decide_eq_true_2 by exact Hle.
  now rewrite (bind_Ret _ _ _ _ _ Hunf).
Qed.

Lemma page_beyond_total_is_discarded_witness :
  exists s',
    loop_body fromtimestamp_posix zero_total_server original true None first_locals
      (init "data") = Ret (Break, with_total 0 first_locals) s' /\
    heap s' = [[]] /\ existing_article_ids s' = ∅.
Proof.
  destruct (page_beyond_total_is_discarded fromtimestamp_posix zero_total_server 2
              original true None 1 first_locals (init "data") first_page 0)
    as (s' & Hb & Hh & Hi & _); [reflexivity|reflexivity|reflexivity|].
  exists s'. split; [exact Hb|]. split; [exact Hh|exact Hi].
Defined.


(** ** Batches *)

Lemma dict_set_fresh {V} (d : list (string * V)) (key : string) (v : V) :
  dict_get d key = None -> dict_set d key v = d ++ [(key, v)].
Proof.
  induction d as [|[k w] d IH]; simpl; [reflexivity|].
  case_bool_decide as E; [discriminate|]. intros Hd. now rewrite IH.
Qed.

Section BatchMore.

Variable fromtimestamp : number -> fromtimestamp_result.
Variable server : list request -> request -> response.

Lemma batch_loop_unknown max_pages incremental since_time config_names :
  forall results s,
  Forall (fun n => dict_get (configs s) n = None) config_names ->
  batch_loop fromtimestamp server config_names max_pages incremental since_time results s
    = Ret results (set_log (log s ++ missing_logged config_names) s).
Proof.
  induction config_names as [|n rest IH]; intros results s Hall; simpl.
  - f_equal. destruct s. simpl. now rewrite app_nil_r.
  - inversion Hall as [|? ? Hn Hrest]; subst. step. rewrite Hn. step.
    rewrite IH by exact Hrest. f_equal. unfold set_log. simpl.
    now rewrite <- app_assoc.
Qed.

(** One known name of a batch: the state in which the next name is
    treated. *)
Lemma batch_step max_pages incremental since_time config_name rest config results s res s' :
  dict_get (configs s) config_name = Some config ->
  batch_loop fromtimestamp server (config_name :: rest) max_pages incremental since_time
    results s = Ret res s' ->
  exists collected sE,
    batch_loop fromtimestamp server rest max_pages incremental since_time
      (dict_set results config_name collected) sE = Ret res s' /\
    configs sE = configs s /\
    (length (heap s) < length (heap sE))%nat /\
    (forall i : nat, (i < length (heap s))%nat -> heap sE !! i = heap s !! i) /\
    deref sE (all_articles sE) = deref s (all_articles s) ++ collected.
Proof.
  intros Hcfg H. simpl in H. step_in H. rewrite Hcfg in H. do 4 step_in H.
  apply bind_Ret_inv in H as (r & sD & Hget & H).
  apply get_all_articles_spec in Hget
    as (Hr & Hsame & _ & collected & sent & Hheap & _).
  simpl in Hr, Hheap. unfold deref in Hheap. simpl in Hheap.
  rewrite lookup_app_r, Nat.sub_diag in Hheap by lia. simpl in Hheap.
  assert (length (heap sD) = S (length (heap s))) as Hlen.
  { rewrite Hheap, length_insert, length_app. simpl. lia. }
  assert (deref sD r = collected) as Hcopy.
  { unfold deref. rewrite Hheap, Hr, list_lookup_insert_eq; [reflexivity|].
    rewrite length_app. simpl. lia. }
  do 4 step_in H. rewrite Hcopy in H.
  exists collected. eexists. split; [exact H|].
  split; [apply Hsame|]. cbn [heap set_log set_all_articles set_heap all_articles].
  split; [rewrite length_app; lia|]. split.
  - intros i Hi. rewrite lookup_app_l by lia.
    rewrite Hheap, list_lookup_insert_ne by lia. now rewrite lookup_app_l.
  - unfold deref. cbn [heap set_log set_all_articles set_heap all_articles].
    rewrite lookup_app_r, Nat.sub_diag by lia. reflexivity.
Qed.

Lemma batch_loop_frame max_pages incremental since_time config_names :
  forall results s res s',
  batch_loop fromtimestamp server config_names max_pages incremental since_time results s
    = Ret res s' ->
  (length (heap s) ≤ length (heap s'))%nat /\
  (forall i : nat, (i < length (heap s))%nat -> heap s' !! i = heap s !! i) /\
  deref s (all_articles s) `prefix_of` deref s' (all_articles s').
Proof.
  induction config_names as [|n rest IH]; intros results s res s' H.
  - injection H as <- <-. split; [lia|]. split; [auto|reflexivity].
  - destruct (dict_get (configs s) n) as [config|] eqn:Hcfg.
    + destruct (batch_step _ _ _ _ _ _ _ _ _ _ Hcfg H)
        as (collected & sE & HE & _ & Hlen & Hold & Hacc).
      apply IH in HE as (Hlen' & Hold' & Hpre).
      split; [lia|]. split.
      * intros i Hi. rewrite Hold' by lia. now apply Hold.
      * etransitivity; [|exact Hpre]. rewrite Hacc. now apply prefix_app_r.
    + simpl in H. step_in H. rewrite Hcfg in H. step_in H.
      apply IH in H. exact H.
Qed.

Lemma known_names_cons s n rest :
  known_names s (n :: rest)
  = if bool_decide (is_Some (dict_get (configs s) n)) then n :: known_names s rest
    else known_names s rest.
Proof. reflexivity. Qed.

Lemma batch_loop_entries max_pages incremental since_time config_names :
  forall results s res s',
  batch_loop fromtimestamp server config_names max_pages incremental since_time results s
    = Ret res s' ->
  NoDup config_names ->
  (forall n, n ∈ config_names -> dict_get results n = None) ->
  exists entries,
    res = results ++ entries /\
    fst <$> entries = known_names s config_names /\
    deref s' (all_articles s') = deref s (all_articles s) ++ concat (snd <$> entries).
Proof.
  induction config_names as [|n rest IH]; intros results s res s' H Hnd Hfresh.
  - injection H as <- <-. exists []. now rewrite !app_nil_r.
  - inversion Hnd as [|? ? Hn Hnd']; subst. rewrite known_names_cons.
    destruct (dict_get (configs s) n) as [config|] eqn:Hcfg.
    + destruct (batch_step _ _ _ _ _ _ _ _ _ _ Hcfg H)
        as (collected & sE & HE & HcfgE & _ & _ & Hacc).
      rewrite dict_set_fresh in HE by (apply Hfresh; now left).
      apply IH in HE as (entries & -> & Hkeys & Hacc'); [|exact Hnd'|].
      * exists ((n, collected) :: entries). rewrite <- app_assoc. split; [reflexivity|].
        rewrite bool_decide_eq_true_2 by eauto. split.
        -- rewrite fmap_cons, Hkeys. unfold known_names. now rewrite HcfgE.
        -- rewrite Hacc', Hacc, <- app_assoc. reflexivity.
      * intros m Hm.
        assert (dict_get (results ++ [(n, collected)]) m
                = dict_get (dict_set results n collected) m) as ->.
        { rewrite dict_set_fresh; [reflexivity|]. apply Hfresh. now left. }
        rewrite dict_get_set. case_bool_decide as E; [congruence|].
        apply Hfresh. now right.
    + simpl in H. step_in H. rewrite Hcfg in H. step_in H.
      apply IH in H as (entries & -> & Hkeys & Hacc); [|exact Hnd'|].
      * exists entries. split; [reflexivity|].
        rewrite bool_decide_eq_false_2 by (intros [? ?]; discriminate).
        split; [exact Hkeys|exact Hacc].
      * intros m Hm. apply Hfresh. now right.
Qed.

Lemma batch_loop_returns max_pages config_names :
  forall results s, exists res s',
    batch_loop fromtimestamp server config_names max_pages false None results s
      = Ret res s'.
Proof.
  induction config_names as [|n rest IH]; intros results s; simpl; [eauto|].
  step. destruct (dict_get (configs s) n) as [config|].
  - do 4 step.
    rewrite (bind_Ret _ _ _ _ _
               (get_all_articles_returns fromtimestamp server max_pages (Some config) _)).
    do 4 step. apply IH.
  - step. apply IH.
Qed.

Lemma get_all_articles_batch_returns config_names max_pages s :
  exists res s',
    get_all_articles_batch fromtimestamp server config_names max_pages false None s
      = Ret res s'.
Proof.
  unfold get_all_articles_batch. destruct config_names; step; apply batch_loop_returns.
Qed.

End BatchMore.

(** X11. A batch over names that are not configured makes no request
    and returns the empty dict: it logs a warning for each name, in order,
    and changes nothing else. *)
Theorem batch_skips_unknown_names fromtimestamp server (config_names : list string)
    (max_pages : Z) (incremental : bool) (since_time : option Z) (s : state) :
  Forall (fun n => dict_get (configs s) n = None) config_names ->
  get_all_articles_batch fromtimestamp server (Some config_names) max_pages incremental
    since_time s
  = Ret [] (set_log (log s ++ missing_logged config_names) s).
Proof.
  intros Hall. unfold get_all_articles_batch. step. now apply batch_loop_unknown.
Qed.

Lemma batch_skips_unknown_names_witness :
  get_all_articles_batch fromtimestamp_posix fourteen_server (Some ["Original"; "new"]) 5
    true None (init "data")
  = Ret [] (set_log [(WARNING, MsgConfigMissing "Original");
                     (WARNING, MsgConfigMissing "new")] (init "data")).
Proof.
  apply (batch_skips_unknown_names fromtimestamp_posix fourteen_server
           ["Original"; "new"] 5 true None (init "data")).
  repeat constructor.
Defined.

(** X12. A batch that returns leaves every list object that existed
    before it as it was: it works on lists of its own. The accumulator it
    leaves is a list that starts with the records of the accumulator it
    found. *)
Theorem batch_keeps_earlier_lists fromtimestamp server
    (config_names : option (list string)) (max_pages : Z) (incremental : bool)
    (since_time : option Z) (s : state) (results : list (string * list article))
    (s' : state) :
  get_all_articles_batch fromtimestamp server config_names max_pages incremental
    since_time s = Ret results s' ->
  (forall i : nat, (i < length (heap s))%nat -> heap s' !! i = heap s !! i) /\
  deref s (all_articles s) `prefix_of` deref s' (all_articles s').
Proof.
  unfold get_all_articles_batch. intros H.
  apply bind_Ret_inv in H as (names & s1 & Hnames & H).
  assert (s1 = s) as -> by (destruct config_names; now injection Hnames).
  now apply batch_loop_frame in H as (_ & Hold & Hpre).
Qed.

Lemma batch_keeps_earlier_lists_witness :
  exists results s',
    get_all_articles_batch fromtimestamp_posix fourteen_server None 2 false None
      (init "data") = Ret results s' /\
    heap s' !! 0%nat = Some [].
Proof.
  destruct (get_all_articles_batch_returns fromtimestamp_posix fourteen_server None 2
              (init "data")) as (results & s' & H).
  exists results, s'. split; [exact H|].
  refine (proj1 (batch_keeps_earlier_lists fromtimestamp_posix fourteen_server None 2
                   false None (init "data") results s' H) 0%nat _).
  simpl. lia.
Defined.

(** X13. When the names of a batch are pairwise distinct, the result
    holds one entry for each configured name, in the order of the names,
    and the accumulator after the batch is the accumulator before it
    followed by the lists of the result, in this order. *)
Theorem batch_accumulates_results_in_order fromtimestamp server
    (config_names : option (list string)) (max_pages : Z) (incremental : bool)
    (since_time : option Z) (s : state) (results : list (string * list article))
    (s' : state) :
  get_all_articles_batch fromtimestamp server config_names max_pages incremental
    since_time s = Ret results s' ->
  NoDup (default (fst <$> configs s) config_names) ->
  fst <$> results = known_names s (default (fst <$> configs s) config_names) /\
  deref s' (all_articles s') = deref s (all_articles s) ++ concat (snd <$> results).
Proof.
  unfold get_all_articles_batch. intros H Hnd.
  apply bind_Ret_inv in H as (names & s1 & Hnames & H).
  assert (s1 = s /\ names = default (fst <$> configs s) config_names) as [-> ->]
    by (destruct config_names; now injection Hnames).
  apply batch_loop_entries in H as (entries & -> & Hkeys & Hacc); [|exact Hnd|reflexivity].
  split; [exact Hkeys|exact Hacc].
Qed.

Lemma batch_accumulates_results_in_order_witness :
  exists results s',
    get_all_articles_batch fromtimestamp_posix fourteen_server
      (Some ["new_target"; "other"; "original"]) 2 false None (init "data")
      = Ret results s' /\
    fst <$> results = ["new_target"; "original"].
Proof.
  destruct (get_all_articles_batch_returns fromtimestamp_posix fourteen_server
              (Some ["new_target"; "other"; "original"]) 2 (init "data"))
    as (results & s' & H).
  exists results, s'. split; [exact H|].
  refine (proj1 (batch_accumulates_results_in_order fromtimestamp_posix fourteen_server
                   (Some ["new_target"; "other"; "original"]) 2 false None (init "data")
                   results s' H _)).
  exact (bool_decide_unpack (NoDup ["new_target"; "other"; "original"]) I).
Defined.

(** ** Saving and loading *)

Section Disk.

Variable disk : state -> disk_op -> verdict.

Lemma ensure_dir_cases directory s :
  (exists s', ensure_dir disk directory s = Ret tt s' /\
              directory ∈ dirs s' /\ dirs s ⊆ dirs s' /\ files s' = files s /\
              heap s' = heap s /\ all_articles s' = all_articles s) \/
  ensure_dir disk directory s = Raise OSError s.
Proof.
  unfold ensure_dir. step. case_bool_decide as Hin.
  - left. exists s. repeat split; auto.
  - unfold bind, makedirs. destruct (disk s (Makedirs directory)); [|now right..].
    left. eexists. split; [reflexivity|]. simpl. repeat split; set_solver.
Qed.

Lemma save_json_cases p d s :
  (exists s', save_json disk p d s = Ret tt s' /\
              files s' = <[p := Complete d]> (files s) /\
              p.1 ∈ dirs s' /\ dirs s ⊆ dirs s' /\
              last (log s') = Some (INFO, MsgJsonSaved p.1 p.2) /\
              heap s' = heap s /\ all_articles s' = all_articles s) \/
  (exists s', save_json disk p d s = Raise OSError s' /\
              untouched_or_partial p s s' /\
              last (log s') = Some (ERROR, MsgJsonFailed p.1 p.2) /\
              heap s' = heap s /\ all_articles s' = all_articles s).
Proof.
  unfold save_json, try_except.
  destruct (ensure_dir_cases p.1 s) as [(s1 & He & Hin & Hsub & Hf & Hh & Ha)|He].
  - rewrite (bind_Ret _ _ _ _ _ He).
    assert (write_json disk p d s1 =
            match disk s1 (WriteFile p.1 p.2) with
            | Done => Ret tt (set_files (<[p := Complete d]> (files s1)) s1)
            | Refused => Raise OSError s1
            | Interrupted => Raise OSError (set_files (<[p := Partial]> (files s1)) s1)
            end) as Hw by reflexivity.
    unfold bind. cbn beta.
    destruct (disk s1 (WriteFile p.1 p.2)); rewrite Hw.
    + left. eexists. split; [reflexivity|]. simpl.
      rewrite Hf, last_snoc. repeat split; auto.
    + right. eexists. split; [reflexivity|]. simpl.
      rewrite last_snoc. unfold untouched_or_partial. repeat split; auto.
    + right. eexists. split; [reflexivity|]. simpl.
      rewrite Hf, last_snoc. unfold untouched_or_partial. repeat split; auto.
  - unfold bind. cbn beta. rewrite He. right. eexists. split; [reflexivity|]. simpl.
    rewrite last_snoc. unfold untouched_or_partial. repeat split; auto.
Qed.

End Disk.


(** X15. Round trip: when [save_json] has returned and the file can be
    opened, [load_json] of the same path returns the document that was
    saved, whatever the file held before. *)
Theorem save_then_load disk text unreadable (p : string * string) (d : document)
    (s s' : state) :
  save_json disk p d s = Ret tt s' ->
  unreadable s' p = false ->
  exists s'', load_json text unreadable p s' = Ret (Some d) s'' /\ files s'' = files s'.
Proof.
  intros Hsave Hread.
  destruct (save_json_cases disk p d s)
    as [(s1 & Hs & Hf & _)|(s1 & Hs & _)]; rewrite Hs in Hsave; [|discriminate].
  injection Hsave as ->.
  assert (files s' !! p = Some (Complete d)) as Hp
    by (rewrite Hf; apply lookup_insert_eq).
  unfold load_json. step. rewrite Hp. step. rewrite Hread. step.
  eexists. split; reflexivity.
Qed.

Lemma save_then_load_witness :
  exists s' s'',
    save_json willing_disk ("data", "articles_all.json") (Articles [record "7" "" ""])
      (init "data") = Ret tt s' /\
    load_json plain_text always_readable ("data", "articles_all.json") s'
      = Ret (Some (Articles [record "7" "" ""])) s''.
Proof.
  eexists. 
  destruct (save_then_load willing_disk plain_text always_readable ("data", "articles_all.json")
              (Articles [record "7" "" ""]) (init "data") _ eq_refl eq_refl)
    as (s'' & H & _).
  exists s''. split; [reflexivity|exact H].
Defined.

(** X16. A save that fails never produces a document: when [save_json]
    has raised, a [load_json] of the same path that returns a document
    returns the one that the file held before the save. A save that broke
    off midway makes the load raise instead. *)
Theorem failed_save_then_load disk text unreadable (p : string * string)
    (d : document) (s : state) (e : exn) (s' : state) :
  save_json disk p d s = Raise e s' ->
  (forall d' s'', load_json text unreadable p s' = Ret (Some d') s'' ->
                  files s !! p = Some (Complete d')) /\
  (files s' !! p = Some Partial ->
   exists e' s'', load_json text unreadable p s' = Raise e' s'').
Proof.
  intros Hsave.
  destruct (save_json_cases disk p d s)
    as [(s1 & Hs & _)|(s1 & Hs & Hf & _)]; rewrite Hs in Hsave; [discriminate|].
  injection Hsave as _ ->. split.
  - intros d' s'' Hload. unfold load_json in Hload. step_in Hload.
    destruct Hf as [Hf|Hf]; rewrite Hf in Hload.
    + destruct (files s !! p) as [[d0|]|]; [| |step_in Hload; discriminate];
        step_in Hload; destruct (unreadable s' p);
        step_in Hload; try discriminate.
      now injection Hload as -> _.
    + rewrite lookup_insert_eq in Hload. step_in Hload.
      destruct (unreadable s' p); step_in Hload; discriminate.
  - intros Hp. unfold load_json. step. rewrite Hp. step.
    destruct (unreadable s' p); step; eauto.
Qed.

Lemma failed_save_then_load_witness :
  exists e s' e' s'',
    save_json failing_disk ("data", "articles_all.json") (Articles []) (init "data")
      = Raise e s' /\
    load_json plain_text always_readable ("data", "articles_all.json") s' = Raise e' s''.
Proof.
  eexists _, _.
  destruct (failed_save_then_load failing_disk plain_text always_readable
              ("data", "articles_all.json") (Articles []) (init "data") _ _ eq_refl)
    as (_ & H).
  destruct (H eq_refl) as (e' & s'' & Hload).
  exists e', s''. split; [reflexivity|exact Hload].
Defined.


(** ** More on the merge *)

Lemma elem_of_unique_new_articles (a : article) (existing incoming : list article) :
  a ∈ unique_new_articles existing incoming <->
  a ∈ incoming /\ get a "id" ∉ existing_ids existing.
Proof.
  unfold unique_new_articles.
  rewrite list_elem_of_In, List.filter_In, <- list_elem_of_In, negb_true_iff,
    bool_decide_eq_false.
  reflexivity.
Qed.

Lemma existing_ids_app (l1 l2 : list article) :
  existing_ids (l1 ++ l2) = existing_ids l1 ∪ existing_ids l2.
Proof.
  rewrite !existing_ids_identifiers, identifiers_app. apply list_to_set_app_L.
Qed.

Lemma existing_ids_unique_new_articles (existing incoming : list article) :
  existing_ids (unique_new_articles existing incoming)
  = existing_ids incoming ∖ existing_ids existing.
Proof.
  apply set_eq. intros i.
  rewrite elem_of_difference,
    (elem_of_existing_ids i (unique_new_articles existing incoming)),
    (elem_of_existing_ids i incoming).
  split.
  - intros (Hne & a & (Ha & Hout)%elem_of_unique_new_articles & <-). eauto.
  - intros ((Hne & a & Ha & <-) & Hout). split; [exact Hne|]. exists a.
    split; [|reflexivity]. apply elem_of_unique_new_articles. auto.
Qed.

Lemma existing_ids_merge (existing incoming : list article) :
  existing_ids (merge existing incoming) = existing_ids existing ∪ existing_ids incoming.
Proof.
  unfold merge. rewrite existing_ids_app, existing_ids_unique_new_articles.
  apply set_eq. intros i. rewrite !elem_of_union, elem_of_difference.
  destruct (decide (i ∈ existing_ids existing)); tauto.
Qed.

Lemma filter_filter {A} (f g : A -> bool) (l : list A) :
  List.filter f (List.filter g l) = List.filter (fun x => g x && f x) l.
Proof.
  induction l as [|x l IH]; [reflexivity|]. simpl.
  destruct (g x); simpl; [destruct (f x)|]; now rewrite IH.
Qed.


Lemma identifiers_unique_new_articles (existing incoming : list article) :
  NoDup (identifiers incoming) ->
  NoDup (identifiers (unique_new_articles existing incoming)).
Proof.
  induction incoming as [|a rest IH]; intros Hnd; [constructor|].
  rewrite identifiers_cons in Hnd.
  assert (NoDup (identifiers rest)) as Hrest
    by (destruct (truthy (get a "id")); [now inversion Hnd|exact Hnd]).
  unfold unique_new_articles. simpl. fold (unique_new_articles existing rest).
  destruct (negb _); [|now apply IH]. rewrite identifiers_cons.
  destruct (truthy (get a "id")); [|now apply IH].
  inversion Hnd as [|? ? Hout _]; subst. constructor; [|now apply IH].
  intros (Hne & b & (Hb & _)%elem_of_unique_new_articles & Hid)%elem_of_identifiers.
  apply Hout, elem_of_identifiers. eauto.
Qed.

Lemma unique_new_articles_app (existing l1 l2 : list article) :
  unique_new_articles existing (l1 ++ l2)
  = unique_new_articles existing l1 ++ unique_new_articles existing l2.
Proof. apply List.filter_app. Qed.

Lemma unique_new_articles_merge (corpus first second : list article) :
  unique_new_articles (merge corpus first) second
  = unique_new_articles corpus (unique_new_articles first second).
Proof.
  unfold unique_new_articles. rewrite filter_filter. apply List.filter_ext.
  intros a. rewrite existing_ids_merge.
  repeat case_bool_decide; simpl; try reflexivity; set_solver.
Qed.

(** X18. The identifiers of the merged corpus are those of the existing
    corpus and those of the incoming records, no more and no less: the
    merge loses no identifier. *)
Theorem merge_keeps_every_identifier (existing incoming : list article) (i : string) :
  i ∈ existing_ids (merge existing incoming) <->
  i ∈ existing_ids existing \/ i ∈ existing_ids incoming.
Proof. rewrite existing_ids_merge. apply elem_of_union. Qed.

(** X19. Merging is associative: folding two runs into the corpus one
    after the other gives the same list as merging the second run into
    the first and the outcome into the corpus. *)
Theorem merge_associative (corpus first second : list article) :
  merge (merge corpus first) second = merge corpus (merge first second).
Proof.
  transitivity ((corpus ++ unique_new_articles corpus first)
                ++ unique_new_articles (merge corpus first) second); [reflexivity|].
  transitivity (corpus ++ unique_new_articles corpus
                            (first ++ unique_new_articles first second)); [|reflexivity].
  rewrite unique_new_articles_app, unique_new_articles_merge, app_assoc. reflexivity.
Qed.

(** X20. The merge keeps a corpus free of duplicates: when no two
    records of the existing corpus share a non-empty identifier, and no
    two incoming records do, no two records of the merged list do. *)
Theorem merge_keeps_identifiers_unique (existing incoming : list article) :
  NoDup (identifiers existing) -> NoDup (identifiers incoming) ->
  NoDup (identifiers (merge existing incoming)).
Proof.
  intros He Hi. unfold merge. rewrite identifiers_app. apply NoDup_app.
  split; [exact He|]. split; [|now apply identifiers_unique_new_articles].
  intros i Hin (Hne & a & (_ & Hout)%elem_of_unique_new_articles & <-)%elem_of_identifiers.
  apply Hout. now rewrite existing_ids_identifiers, elem_of_list_to_set.
Qed.

Lemma merge_keeps_identifiers_unique_witness :
  NoDup (identifiers (merge [record "1" "" ""; record "2" "" ""]
                            [record "2" "" ""; record "3" "" ""])).
Proof.
  apply (merge_keeps_identifiers_unique [record "1" "" ""; record "2" "" ""]
           [record "2" "" ""; record "3" "" ""]).
  - exact (bool_decide_unpack (NoDup ["1"; "2"]) I).
  - exact (bool_decide_unpack (NoDup ["2"; "3"]) I).
Defined.



(** ** What a filtering crawl collects, and what it raises *)

Lemma tracked_nil (s s' : state) :
  heap s' = heap s -> all_articles s' = all_articles s ->
  existing_article_ids s' = existing_article_ids s -> tracked s s' [].
Proof.
  intros Hh Ha Hi. unfold tracked, deref. rewrite insert_extend_nil.
  split; [exact Hh|]. split; [exact Ha|]. split.
  - rewrite Hi. symmetry. apply union_empty_r_L.
  - split; [constructor|]. intros i Hin. inversion Hin.
Qed.

Lemma tracked_from (s0 s s' : state) (added : list article) :
  heap s0 = heap s -> all_articles s0 = all_articles s ->
  existing_article_ids s0 = existing_article_ids s ->
  tracked s0 s' added -> tracked s s' added.
Proof. unfold tracked, deref. intros -> -> ->. auto. Qed.

Lemma tracked_to (s s1 s' : state) (added : list article) :
  tracked s s1 added ->
  heap s' = heap s1 -> all_articles s' = all_articles s1 ->
  existing_article_ids s' = existing_article_ids s1 ->
  tracked s s' added.
Proof. unfold tracked, deref. intros H -> -> ->. exact H. Qed.

Lemma tracked_trans (s s1 s2 : state) (x y : list article) :
  tracked s s1 x -> tracked s1 s2 y -> tracked s s2 (x ++ y).
Proof.
  intros (Hh1 & Ha1 & Hi1 & Hn1 & Hf1) (Hh2 & Ha2 & Hi2 & Hn2 & Hf2).
  unfold tracked. split.
  { rewrite Hh2, Ha1. unfold deref. rewrite Hh1. apply extend_extend. }
  split; [congruence|]. split.
  { rewrite Hi2, Hi1, existing_ids_app. symmetry. apply union_assoc_L. }
  rewrite identifiers_app. split.
  - apply NoDup_app. split; [exact Hn1|]. split; [|exact Hn2].
    intros i Hx Hy. apply (Hf2 i Hy). rewrite Hi1. apply elem_of_union. right.
    now rewrite existing_ids_identifiers, elem_of_list_to_set.
  - intros i [Hx|Hy]%elem_of_app; [now apply Hf1|].
    intros Hin. apply (Hf2 i Hy). rewrite Hi1. apply elem_of_union. now left.
Qed.

Section Collect.

Variable fromtimestamp : number -> fromtimestamp_result.
Variable server : list request -> request -> response.

Lemma accumulate_tracks incremental filter_time articles l s count s' :
  incremental || bool_decide (is_Some filter_time) = true ->
  accumulate fromtimestamp incremental filter_time articles l s = Ret count s' ->
  exists added, tracked s s' added.
Proof.
  intros Hmode H. unfold accumulate in H. rewrite Hmode in H.
  apply bind_Ret_inv in H as (added & s0 & Hf & H).
  apply filter_new_articles_exact in Hf as (d & o & _ & _ & -> & Hnd & Hfresh & _).
  do 4 step_in H. injection H as _ <-. exists added.
  destruct (incremental && bool_decide (length added = 0%nat)
            && bool_decide (3 < page_index l));
    (split; [reflexivity|]; split; [reflexivity|]; split; [reflexivity|];
     split; assumption).
Qed.

Lemma take_page_tracks incremental filter_time data l s f l' s' :
  incremental || bool_decide (is_Some filter_time) = true ->
  take_page fromtimestamp incremental filter_time data l s = Ret (f, l') s' ->
  exists added, tracked s s' added.
Proof.
  intros Hmode H. unfold take_page in H.
  apply bind_Ret_inv in H as (count & s1 & Ha & H).
  apply accumulate_tracks in Ha as (added & Ht); [|exact Hmode]. exists added.
  destruct (bool_decide (Z.of_nat (length (parse_articles data)) < page_size));
    [step_in H|]; injection H as _ _ <-; [|exact Ht].
  eapply tracked_to; [exact Ht|reflexivity..].
Qed.

Lemma loop_body_tracks config incremental filter_time l s f l' s' :
  incremental || bool_decide (is_Some filter_time) = true ->
  loop_body fromtimestamp server config incremental filter_time l s = Ret (f, l') s' ->
  exists added, tracked s s' added.
Proof.
  intros Hmode. rewrite loop_body_unfold. cbn zeta.
  destruct (fetched_fields server config l s) as (Hh & _ & Hi & Hsame).
  assert (all_articles (fetched server config l s) = all_articles s) as Ha
    by apply Hsame.
  destruct (raw_records _).
  2:{ intros [= _ _ <-]. exists []. apply tracked_nil; [exact Hh|exact Ha|exact Hi]. }
  destruct (declared_total _) as [count|].
  - destruct (bool_decide (ceil_div count page_size < page_index l)).
    + intros [= _ _ <-]. exists []. apply tracked_nil; [exact Hh|exact Ha|exact Hi].
    + intros (added & Ht)%take_page_tracks; [|exact Hmode]. exists added.
      eapply tracked_from; [exact Hh|exact Ha|exact Hi|exact Ht].
  - intros (added & Ht)%take_page_tracks; [|exact Hmode]. exists added.
    eapply tracked_from; [exact Hh|exact Ha|exact Hi|exact Ht].
Qed.

Lemma while_loop_tracks config incremental filter_time max_pages fuel :
  incremental || bool_decide (is_Some filter_time) = true ->
  forall l s l' s',
  while_loop fromtimestamp server fuel max_pages config incremental filter_time l s
    = Ret l' s' ->
  exists collected, tracked s s' collected.
Proof.
  intros Hmode. induction fuel as [|fuel IH]; intros l s l' s' H.
  - exists []. assert (s' = s) as ->.
    { simpl in H. case_bool_decide; now injection H. }
    now apply tracked_nil.
  - rewrite while_loop_S in H. case_bool_decide.
    + apply bind_Ret_inv in H as ([f l1] & s1 & Hb & H). cbn [fst snd] in H.
      apply loop_body_tracks in Hb as (x & Hx); [|exact Hmode]. destruct f.
      * injection H as _ <-. eauto.
      * apply IH in H as (y & Hy). exists (x ++ y). eapply tracked_trans; eauto.
    + injection H as _ <-. exists []. now apply tracked_nil.
Qed.

Lemma filter_new_articles_escapes articles since s e s' :
  filter_new_articles fromtimestamp articles since s = Raise e s' ->
  since ≠ None /\ escapes fromtimestamp e.
Proof.
  unfold filter_new_articles. intros H.
  apply bind_Raise_inv in H as [H|([[new dups] olds] & s1 & _ & H)].
  - eapply filter_loop_escapes; eauto.
  - cbn beta iota in H. do 2 step_in H. discriminate.
Qed.

Lemma accumulate_escapes incremental filter_time articles l s e s' :
  accumulate fromtimestamp incremental filter_time articles l s = Raise e s' ->
  filter_time ≠ None /\ escapes fromtimestamp e.
Proof.
  unfold accumulate. destruct (incremental || _); intros H.
  - apply bind_Raise_inv in H as [H|(added & s0 & _ & H)].
    + eapply filter_new_articles_escapes; eauto.
    + do 4 step_in H. discriminate.
  - do 3 step_in H. discriminate.
Qed.

Lemma take_page_escapes incremental filter_time data l s e s' :
  take_page fromtimestamp incremental filter_time data l s = Raise e s' ->
  filter_time ≠ None /\ escapes fromtimestamp e.
Proof.
  unfold take_page. intros H.
  apply bind_Raise_inv in H as [H|(count & s1 & _ & H)].
  - eapply accumulate_escapes; eauto.
  - case_bool_decide; [step_in H|]; discriminate.
Qed.

Lemma loop_body_escapes config incremental filter_time l s e s' :
  loop_body fromtimestamp server config incremental filter_time l s = Raise e s' ->
  filter_time ≠ None /\ escapes fromtimestamp e.
Proof.
  rewrite loop_body_unfold. cbn zeta.
  destruct (raw_records _); [|discriminate].
  destruct (declared_total _) as [count|].
  - case_bool_decide; [discriminate|]. apply take_page_escapes.
  - apply take_page_escapes.
Qed.

Lemma while_loop_escapes config incremental filter_time max_pages fuel :
  forall l s e s',
  while_loop fromtimestamp server fuel max_pages config incremental filter_time l s
    = Raise e s' ->
  filter_time ≠ None /\ escapes fromtimestamp e.
Proof.
  induction fuel as [|fuel IH]; intros l s e s' H.
  - simpl in H. case_bool_decide; discriminate.
  - rewrite while_loop_S in H. case_bool_decide; [|discriminate].
    apply bind_Raise_inv in H as [H|([f l1] & s1 & _ & H)].
    + eapply loop_body_escapes; eauto.
    + cbn [fst snd] in H. destruct f; [discriminate|]. eapply IH; eauto.
Qed.

Lemma get_all_articles_escapes max_pages config incremental since_time s e s' :
  get_all_articles fromtimestamp server max_pages config incremental since_time s
    = Raise e s' ->
  chosen_filter_time incremental since_time s ≠ None /\ escapes fromtimestamp e.
Proof.
  rewrite get_all_articles_unfold. cbn zeta.
  destruct (while_loop _ _ _ _ _ _ _ _ _) as [l s1|e1 s1] eqn:Hloop; [discriminate|].
  intros [= <- <-]. eapply while_loop_escapes; eauto.
Qed.


End Collect.

(** X22. A crawl that filters (incremental, or with a threshold) keeps
    the accumulator and the seen set in step: when it returns, the
    accumulator has grown by the records collected, the seen set by their
    identifiers, and of the records collected no two share a non-empty
    identifier and none has an identifier that was seen before the crawl,
    over all the pages of the crawl. *)
Theorem filtering_crawl_collects_new fromtimestamp server (max_pages : Z)
    (config : option SpiderConfig) (incremental : bool) (since_time : option Z)
    (s : state) (r : nat) (s' : state) :
  get_all_articles fromtimestamp server max_pages config incremental since_time s
    = Ret r s' ->
  incremental = true \/ is_Some since_time ->
  exists collected, tracked s s' collected.
Proof.
  rewrite get_all_articles_unfold. cbn zeta.
  destruct (while_loop _ _ _ _ _ _ _ _ _) as [l s1|] eqn:Hloop; [|discriminate].
  intros [= _ <-] Hmode.
  apply while_loop_tracks in Hloop as (collected & Ht).
  - exists collected.
    destruct (started_fields (default (current_config s) config) incremental
                (chosen_filter_time incremental since_time s) s)
      as (Hh0 & _ & Hi0 & Hsame0).
    destruct (finished_fields incremental l s1) as (Hh1 & _ & Hi1 & Hsame1).
    eapply tracked_to; [eapply tracked_from; [exact Hh0|apply Hsame0|exact Hi0|exact Ht]
                       |exact Hh1|apply Hsame1|exact Hi1].
  - destruct Hmode as [->|[t ->]]; [reflexivity|]. simpl. apply orb_true_r.
Qed.

Lemma filtering_crawl_collects_new_witness :
  exists r s' collected,
    get_all_articles fromtimestamp_posix fourteen_server 2 None true None (init "data")
      = Ret r s' /\
    tracked (init "data") s' collected.
Proof.
  destruct (get_all_articles fromtimestamp_posix fourteen_server 2 None true None
              (init "data")) as [r s'|e s'] eqn:H.
  - destruct (filtering_crawl_collects_new fromtimestamp_posix fourteen_server 2 None
                true None (init "data") r s' H (or_introl eq_refl)) as (collected & Ht).
    exists r, s', collected. split; [reflexivity|exact Ht].
  - apply get_all_articles_escapes in H as (Hf & _). now contradiction Hf.
Defined.



(** ** Cookies *)

Lemma no_char_cons (c d : ascii) (s : string) :
  no_char c (String d s) <-> c ≠ d /\ no_char c s.
Proof. unfold no_char. simpl. apply not_elem_of_cons. Qed.

Lemma no_char_app (c : ascii) (s t : string) :
  no_char c s -> no_char c t -> no_char c (s +:+ t).
Proof.
  induction s as [|d s IH]; intros Hs Ht; [exact Ht|].
  apply no_char_cons in Hs as [Hd Hs].
  change (no_char c (String d (s +:+ t))). apply no_char_cons. auto.
Qed.

Lemma append_assoc (s t u : string) : (s +:+ t) +:+ u = s +:+ (t +:+ u).
Proof.
  induction s as [|c s IH]; [reflexivity|].
  change (String c ((s +:+ t) +:+ u) = String c (s +:+ (t +:+ u))). now rewrite IH.
Qed.

Lemma split_semicolon_space_cons (c : ascii) (r : string) :
  c ≠ ";"%char ->
  split_semicolon_space (String c r) = cons_head c (split_semicolon_space r).
Proof.
  intros Hc. destruct r as [|d r]; [reflexivity|].
  change (split_semicolon_space (String c (String d r)))
    with (if bool_decide (c = ";"%char) && bool_decide (d = " "%char)
          then "" :: split_semicolon_space r
          else cons_head c (split_semicolon_space (String d r))).
  now rewrite bool_decide_eq_false_2.
Qed.

Lemma split_semicolon_space_plain (s : string) :
  no_char ";" s -> split_semicolon_space s = [s].
Proof.
  induction s as [|c s IH]; intros H; [reflexivity|].
  apply no_char_cons in H as [Hc Hs].
  rewrite split_semicolon_space_cons by congruence. now rewrite IH.
Qed.

Lemma split_semicolon_space_sep (s rest : string) :
  no_char ";" s ->
  split_semicolon_space (s +:+ "; " +:+ rest) = s :: split_semicolon_space rest.
Proof.
  induction s as [|c s IH]; intros H; [reflexivity|].
  apply no_char_cons in H as [Hc Hs].
  change (String c s +:+ "; " +:+ rest) with (String c (s +:+ "; " +:+ rest)).
  rewrite split_semicolon_space_cons by congruence. now rewrite IH.
Qed.

Lemma split_equals_pair (key value : string) :
  no_char "=" key -> split_equals (key +:+ "=" +:+ value) = Some (key, value).
Proof.
  induction key as [|c key IH]; intros H; [reflexivity|].
  apply no_char_cons in H as [Hc Hk].
  change (split_equals (String c (key +:+ "=" +:+ value)) = Some (String c key, value)).
  simpl. rewrite bool_decide_eq_false_2 by congruence. now rewrite IH.
Qed.

Lemma parse_cookie_header_fold (cookies : list (string * string)) :
  cookies ≠ [] -> Forall plain_cookie cookies ->
  forall acc : gmap string string,
    foldl (fun (cookies : gmap string string) cookie =>
             match split_equals cookie with
             | Some (key, value) => <[key := value]> cookies
             | None => cookies
             end)
          acc (split_semicolon_space (cookie_header cookies))
    = foldl (fun (m : gmap string string) kv => <[kv.1 := kv.2]> m) acc cookies.
Proof.
  induction cookies as [|[k v] rest IH]; [congruence|]. intros _ Hall acc.
  inversion Hall as [|? ? (Hk1 & Hk2 & Hv) Hrest]; subst. simpl in Hk1, Hk2, Hv.
  assert (no_char ";" (k +:+ "=" +:+ v)) as Hkv.
  { apply no_char_app; [exact Hk1|]. apply no_char_app; [|exact Hv].
    apply no_char_cons. split; [discriminate|]. intros Hin. inversion Hin. }
  destruct rest as [|kv2 rest].
  - change (cookie_header [(k, v)]) with (k +:+ "=" +:+ v).
    rewrite split_semicolon_space_plain by exact Hkv. simpl.
    now rewrite split_equals_pair.
  - change (cookie_header ((k, v) :: kv2 :: rest))
      with (k +:+ "=" +:+ v +:+ "; " +:+ cookie_header (kv2 :: rest)).
    replace (k +:+ "=" +:+ v +:+ "; " +:+ cookie_header (kv2 :: rest))
      with ((k +:+ "=" +:+ v) +:+ "; " +:+ cookie_header (kv2 :: rest))
      by now rewrite !append_assoc.
    rewrite split_semicolon_space_sep by exact Hkv.
    cbn [foldl]. rewrite split_equals_pair by exact Hk2.
    now rewrite IH.
Qed.

Lemma cookie_header_truthy (cookies : list (string * string)) :
  cookies ≠ [] -> truthy (cookie_header cookies) = true.
Proof.
  destruct cookies as [|[k v] rest]; [congruence|]. intros _.
  apply bool_decide_eq_true_2. intros H.
  destruct rest; destruct k; vm_compute in H; discriminate.
Qed.

Lemma lookup_foldl_insert (cookies : list (string * string)) (k v : string) :
  NoDup cookies.*1 ->
  foldl (fun (m : gmap string string) kv => <[kv.1 := kv.2]> m) ∅ cookies !! k = Some v
  <-> (k, v) ∈ cookies.
Proof.
  induction cookies as [|[k' v'] rest IH] using rev_ind; intros Hnd.
  - simpl. rewrite lookup_empty, elem_of_nil. split; [discriminate|tauto].
  - rewrite foldl_app, elem_of_app, list_elem_of_singleton. simpl.
    rewrite fmap_app in Hnd. apply NoDup_app in Hnd as (Hnd & Hout & _).
    destruct (decide (k' = k)) as [->|Hne].
    + rewrite lookup_insert_eq. split.
      * intros [= ->]. now right.
      * intros [Hin|[= ->]]; [|reflexivity]. exfalso.
        apply (Hout k); [|now left]. apply list_elem_of_fmap. now exists (k, v).
    + rewrite lookup_insert_ne by exact Hne. rewrite IH by exact Hnd.
      split; [now left|]. intros [Hin|[= -> ->]]; [exact Hin|contradiction].
Qed.

(** X24. Round trip of the cookie header: for cookies with pairwise
    distinct names, none of which holds [;] or [=], and values that hold
    no [;], [_parse_cookies] reads from the header [k1=v1; k2=v2; ...]
    exactly these cookies; a value may hold [=]. *)
Theorem parse_cookies_of_header (cookies : list (string * string)) (k v : string) :
  Forall plain_cookie cookies -> NoDup cookies.*1 ->
  _parse_cookies (cookie_header cookies) !! k = Some v <-> (k, v) ∈ cookies.
Proof.
  intros Hall Hnd. rewrite <- lookup_foldl_insert by exact Hnd.
  unfold _parse_cookies. destruct cookies as [|kv rest]; [reflexivity|].
  rewrite cookie_header_truthy by discriminate.
  now rewrite parse_cookie_header_fold.
Qed.

Lemma parse_cookies_of_header_witness :
  _parse_cookies "session=abc==; lang=zh CN" !! "session" = Some "abc==".
Proof.
  assert (Forall plain_cookie [("session", "abc=="); ("lang", "zh CN")]) as Hall.
  { repeat constructor; unfold no_char; simpl; intros H;
      repeat (apply elem_of_cons in H as [H|H]; [discriminate H|]); inversion H. }
  assert (NoDup ["session"; "lang"]) as Hnd
    by exact (bool_decide_unpack (NoDup ["session"; "lang"]) I).
  apply (proj2 (parse_cookies_of_header [("session", "abc=="); ("lang", "zh CN")]
                  "session" "abc==" Hall Hnd)).
  now left.
Defined.

(** ** Configurations *)

(** X25. Round trip of a configuration: [from_dict] reads back from
    [to_dict c] the configuration [c], also when the dict holds further
    keys; it raises [KeyError] on a dict that lacks one of the three
    required keys, and fills in the two optional ones. *)
Theorem from_dict_of_to_dict (c : SpiderConfig) :
  from_dict (to_dict c) = Some c /\
  (forall key value, key ∉ config_keys ->
     from_dict (<[key := value]> (to_dict c)) = Some c) /\
  (forall key, key ∈ ["section_id"; "topic_class_id"; "name"] ->
     from_dict (delete key (to_dict c)) = None) /\
  from_dict (delete "description" (delete "base_url" (to_dict c)))
    = Some {| section_id := section_id c; topic_class_id := topic_class_id c;
              name := name c; description := ""; base_url := default_base_url |}.
Proof.
  destruct c as [sec top nam des url]. split; [reflexivity|]. split; [|split].
  - intros key value Hkey. unfold from_dict.
    assert (forall k, k ∈ config_keys ->
              <[key := value]> (to_dict (Build_SpiderConfig sec top nam des url)) !! k
              = to_dict (Build_SpiderConfig sec top nam des url) !! k) as Hk.
    { intros k Hin. apply lookup_insert_ne. intros ->. contradiction. }
    rewrite !Hk by (unfold config_keys; set_solver). reflexivity.
  - intros key Hkey. unfold from_dict.
    repeat (apply elem_of_cons in Hkey as [->|Hkey]; [reflexivity|]).
    inversion Hkey.
  - reflexivity.
Qed.

Lemma from_dict_of_to_dict_witness :
  from_dict (<["cookie" := "x"]> (to_dict original)) = Some original.
Proof.
  apply (proj1 (proj2 (from_dict_of_to_dict original)) "cookie" "x").
  exact (bool_decide_unpack ("cookie" ∉ config_keys) I).
Defined.

(** X26. A configuration that [add_config] has registered is the one
    that [set_config] of its name selects: [add_config] leaves the current
    configuration and the configurations of the other names as they were,
    and the following [set_config] returns [True] and makes the new
    configuration, with the default URL, the current one. *)
Theorem add_then_set_config text (config_name section topic_class n descr : string)
    (s : state) :
  exists s1 s2,
    add_config text config_name section topic_class n descr s = Ret tt s1 /\
    current_config s1 = current_config s /\
    (forall other, other ≠ config_name ->
       dict_get (configs s1) other = dict_get (configs s) other) /\
    set_config text config_name s1 = Ret true s2 /\
    current_config s2 = {| section_id := section; topic_class_id := topic_class;
                           name := n; description := descr;
                           base_url := default_base_url |} /\
    configs s2 = configs s1.
Proof.
  eexists _, _. split; [reflexivity|]. split; [reflexivity|]. split.
  - intros other Hne. cbn [configs set_log set_configs]. rewrite dict_get_set.
    now rewrite bool_decide_eq_false_2 by congruence.
  - unfold set_config. step. cbn [configs set_log set_configs].
    rewrite dict_get_set, bool_decide_eq_true_2 by reflexivity.
    do 2 step. split; [reflexivity|]. split; reflexivity.
Qed.

Lemma add_then_set_config_witness :
  exists s1 s2,
    add_config plain_text "third" "1" "2" "third target" "" (init "data") = Ret tt s1 /\
    set_config plain_text "third" s1 = Ret true s2 /\
    dict_get (configs s1) "original" = Some original.
Proof.
  destruct (add_then_set_config plain_text "third" "1" "2" "third target" ""
              (init "data")) as (s1 & s2 & Hadd & _ & Hother & Hset & _).
  exists s1, s2. split; [exact Hadd|]. split; [exact Hset|].
  rewrite (Hother "original") by discriminate. reflexivity.
Defined.

(** ** Loading, in [spider.py] *)

Section Loading.

Variable text : string -> message.
Variable NameError : exn.

Lemma load_crawl_history_nothing s :
  exists s', load_crawl_history text NameError s = Ret tt s' /\ same_but_log s s'.
Proof.
  unfold load_crawl_history. do 2 step.
  destruct (bool_decide (is_Some (files s !! crawl_history_file s))); simpl.
  - eexists. split; [reflexivity|reflexivity].
  - exists s. split; [reflexivity|]. unfold same_but_log. now destruct s.
Qed.

Lemma load_existing_data_nothing filename s :
  exists s', load_existing_data text NameError filename s = Ret [] s' /\
             same_but_log s s'.
Proof.
  unfold load_existing_data. do 2 step.
  destruct (bool_decide (is_Some (files s !! _))); simpl.
  - eexists. split; [reflexivity|reflexivity].
  - step. eexists. split; [reflexivity|reflexivity].
Qed.

End Loading.

(** X27. In [spider.py] nothing is ever loaded: the module does not
    import [load_json], so the call raises [NameError], which the handler
    of every [Exception] logs. Whatever the files hold,
    [load_existing_data] returns the empty list and [load_crawl_history]
    returns, and both leave the seen set, the time of the last crawl and
    all the rest of the state but the log as they were. *)
Theorem spider_loads_nothing text NameError (filename : option string) (s : state) :
  (exists s', load_existing_data text NameError filename s = Ret [] s' /\
              same_but_log s s') /\
  (exists s', load_crawl_history text NameError s = Ret tt s' /\ same_but_log s s').
Proof.
  split; [apply load_existing_data_nothing|apply load_crawl_history_nothing].
Qed.

(** X28. Hence [incremental_crawl] of [spider.py] is an incremental
    batch followed by the save of the history: it runs from the seen set
    and the time of the last crawl that the spider holds, not from those
    on disk; the list of existing articles is empty, so that the branch
    that merges them is never taken. *)
Theorem incremental_crawl_is_a_batch fromtimestamp server disk text NameError (now : Z)
    (config_names : option (list string)) (max_pages : Z) (load_existing : bool)
    (s : state) :
  exists s0,
    same_but_log s s0 /\
    incremental_crawl fromtimestamp server disk text NameError now config_names max_pages
      load_existing s
    = (results <- get_all_articles_batch fromtimestamp server config_names max_pages
                    true None;;
       save_crawl_history disk now;;
       ret results) s0.
Proof.
  unfold incremental_crawl. step.
  destruct (load_crawl_history_nothing text NameError
              (set_log (log s ++ [(INFO, text "=== 开始增量爬取 ===")]) s))
    as (s1 & Hh & Hs1).
  rewrite (bind_Ret _ _ _ _ _ Hh).
  assert (exists s2, (if load_existing then load_existing_data text NameError None
                      else ret []) s1 = Ret [] s2 /\ same_but_log s1 s2)
    as (s2 & Hd & Hs2).
  { destruct load_existing; [apply load_existing_data_nothing|].
    exists s1. split; [reflexivity|]. unfold same_but_log. now destruct s1. }
  rewrite (bind_Ret _ _ _ _ _ Hd). exists s2. split.
  - unfold same_but_log in *. rewrite Hs2, Hs1. reflexivity.
  - unfold bind. destruct (get_all_articles_batch _ _ _ _ _ _ s2); reflexivity.
Qed.

(** ** Parsing a page *)




Lemma merge_keeps_every_identifier_witness :
  "3" ∈ existing_ids (merge [record "1" "" ""] [record "3" "" ""]).
Proof.
  apply (proj2 (merge_keeps_every_identifier [record "1" "" ""] [record "3" "" ""] "3")).
  right. apply elem_of_existing_ids. split; [discriminate|].
  exists (record "3" "" ""). split; [now left|reflexivity].
Defined.
